(** * image-inspector: option validation and its string helpers

    A shallow embedding of the Go packages [pkg/util] (string helpers) and
    [cmd] (the [ImageInspectorOptions] record, its default constructor and
    [Validate]), with the properties the specification states about them. *)

From Stdlib Require Import String List ZArith Bool Arith Lia.
Import ListNotations.
Local Open Scope string_scope.
Local Open Scope list_scope.
Local Open Scope nat_scope.

(** Go's [len(s)] on a string counts bytes; a Rocq [string] is a list of
    bytes, so [len] is [String.length]. *)
Definition len (s : string) : nat := String.length s.

(* ===================================================================== *)
(** ** Package util *)
(* ===================================================================== *)
Module util.

(** [func StrOrDefault(s string, d string) string] *)
Definition StrOrDefault (s d : string) : string :=
  if len s =? 0 then d else s.

(** [func Min(x, y int) int] *)
Definition Min (x y : Z) : Z :=
  if (x <? y)%Z then x else y.

(** [func StringInList(s string, l []string) bool]: the loop returns [true]
    at the first element equal to [s], [false] when the list is exhausted. *)
Fixpoint StringInList (s : string) (l : list string) : bool :=
  match l with
  | [] => false
  | opt :: l' => if String.eqb s opt then true else StringInList s l'
  end.

(** One iteration of the loop of [Unique]: [b] is the accumulator. *)
Definition Unique_step (b : list string) (v : string) : list string :=
  if negb (StringInList v b) then b ++ [v] else b.

(** [func Unique(a []string) []string]: [b := []string{}], then one
    [Unique_step] per element of [a], left to right. *)
Definition Unique (a : list string) : list string :=
  fold_left Unique_step a [].

(** Position of the first occurrence of [v] in [l] ([length l] when [v]
    does not occur). *)
Fixpoint first_index (v : string) (l : list string) : nat :=
  match l with
  | [] => 0
  | x :: l' => if String.eqb v x then 0 else S (first_index v l')
  end.

End util.

(* ===================================================================== *)
(** ** What [Validate] uses of Go's standard library *)
(* ===================================================================== *)
Module os.

(** [os.FileInfo], reduced to what a caller can ask of it here. [Mode] is
    the 32-bit [os.FileMode]. *)
Record FileInfo : Type := mkFileInfo {
  Name : string;
  Size : Z;
  Mode : Z
}.

(** [os.ModeDir = 1 << 31]. *)
Definition ModeDir : Z := Z.shiftl 1 31.

(** [fi.IsDir()] is [fi.Mode()&os.ModeDir != 0]. *)
Definition IsDir (fi : FileInfo) : bool :=
  negb (Z.land (Mode fi) ModeDir =? 0)%Z.

(** The error of a failed [os.Stat] is a [*PathError] around a
    [syscall.Errno]; only the number matters to [Validate]. *)
Definition Errno : Type := Z.
Definition ENOENT : Errno := 2%Z.
Definition EACCES : Errno := 13%Z.
Definition ENOTDIR : Errno := 20%Z.

(** The pair [(FileInfo, error)] returned by [os.Stat]: the file's
    description and a [nil] error, or no description and an error. *)
Inductive stat_result : Type :=
| StatOk (fi : FileInfo)
| StatErr (e : Errno).

(** The [err] component of the pair; [None] is [nil]. *)
Definition err (r : stat_result) : option Errno :=
  match r with
  | StatOk _ => None
  | StatErr e => Some e
  end.

(** [os.IsNotExist(err)]: [false] on [nil], and on an error it holds exactly
    for [ENOENT]. *)
Definition IsNotExist (e : option Errno) : bool :=
  match e with
  | None => false
  | Some n => (n =? ENOENT)%Z
  end.

(** The state of the filesystem, as [os.Stat] reports it path by path. *)
Definition filesystem : Type := string -> stat_result.

End os.

Module fmt.

(** The double-quote character, by its code. *)
Definition dquote : string := String (Ascii.ascii_of_nat 34) EmptyString.

(** The verb [%v] applied to a [[]string]: the elements separated by one
    space, in square brackets. *)
Definition v_strings (l : list string) : string :=
  "[" ++ String.concat " " l ++ "]".

End fmt.

(* ===================================================================== *)
(** ** Package cmd *)
(* ===================================================================== *)
Module cmd.
Import os.

(** [const DefaultDockerSocketLocation] *)
Definition DefaultDockerSocketLocation : string := "unix:///var/run/docker.sock".

(** *** Slices and the memory behind them

    The memory that holds the backing arrays of the slices: a string per
    cell address, and [brk], the address from which cells are free. Two
    slices share an array where their cells are the same addresses. *)
Record memory : Type := mkMemory {
  cells : nat -> string;
  brk : nat
}.

(** [type MultiStringVar []string]. A slice value is a header: the address
    of its first cell, its length and its capacity. *)
Record MultiStringVar : Type := mkSlice {
  ptr : nat;
  slice_len : nat;
  slice_cap : nat
}.

(** The elements a slice shows: the [len] cells from its pointer on. *)
Definition elems (h : memory) (sv : MultiStringVar) : list string :=
  map (cells h) (seq (ptr sv) (slice_len sv)).

(** The composite literal [MultiStringVar{}]: empty, without capacity. *)
Definition empty_slice : MultiStringVar :=
  {| ptr := 0; slice_len := 0; slice_cap := 0 |}.

(** The assignment of [x] to the cell at address [a]. *)
Definition write (h : memory) (a : nat) (x : string) : memory :=
  {| cells := fun b => if b =? a then x else cells h b;
     brk := brk h |}.

(** A new array of [n] cells, from address [brk] on: it holds [l],
    followed by zero values; no other cell changes. *)
Definition allocate (h : memory) (l : list string) (n : nat) : memory :=
  {| cells := fun b =>
       if (brk h <=? b) && (b <? brk h + n)
       then nth (b - brk h) l EmptyString
       else cells h b;
     brk := brk h + n |}.

(** Go's built-in [append(s, x)]. With spare capacity ([len < cap]) the
    cell behind the last element is overwritten in place, whatever else
    shows that cell, and the result is a slice on the same array, one
    longer. Without, the elements and [x] go to a new array and the old one
    stays as it is. [grow c] is the spare capacity the runtime leaves when
    it reallocates a slice of capacity [c]. *)
Definition append (grow : nat -> nat) (h : memory) (s : MultiStringVar) (x : string)
  : MultiStringVar * memory :=
  if slice_len s <? slice_cap s then
    ({| ptr := ptr s; slice_len := S (slice_len s); slice_cap := slice_cap s |},
     write h (ptr s + slice_len s) x)
  else
    let cap' := S (slice_len s) + grow (slice_cap s) in
    ({| ptr := brk h; slice_len := S (slice_len s); slice_cap := cap' |},
     allocate h (elems h s ++ [x]) cap').

(** The method [Set] of [MultiStringVar]: the receiver becomes the result
    of appending [s] to it; the error returned is always [nil]. *)
Definition Set_ (grow : nat -> nat) (st : MultiStringVar * memory) (s : string)
  : MultiStringVar * memory :=
  append grow (snd st) (fst st) s.

(** The method [String] of [MultiStringVar]: the slice under [%v]. *)
Definition String_ (h : memory) (sv : MultiStringVar) : string :=
  fmt.v_strings (elems h sv).

(** [type ImageInspectorOptions struct] *)
Record ImageInspectorOptions : Type := mkOptions {
  URI : string;
  Image : string;
  Container : string;
  ScanContainerChanges : bool;
  DstPath : string;
  Serve : string;
  Chroot : bool;
  DockerCfg : MultiStringVar;
  Username : string;
  PasswordFile : string;
  ScanTypes : MultiStringVar;
  ScanResultsDir : string;
  OpenScapHTML : bool;
  CVEUrlPath : string;
  ClamSocket : string;
  PostResultURL : string;
  PostResultTokenFile : string;
  AuthToken : string;
  AuthTokenFile : string;
  PullPolicy : string
}.

(** The errors [Validate] builds with [fmt.Errorf], one constructor per
    call site, in the order of the source; the arguments are those of the
    format string. *)
Inductive error : Type :=
| MissingConnection
| ConflictingTarget
| MissingTarget
| MissingContainerForDiff
| ConflictingAuth
| MissingPasswordFile
| ChrootRequiresServe
| ResultsDirWithoutScanType
| ResultsDirNotADirectory (dir : string)
| TokenFileWithoutPostURL
| HTMLReportRequiresOpenSCAP
| FileNotFound (fl : string)
| MissingClamSocket
| InvalidScanType (v : string) (options : list string)
| InvalidPullPolicy (v : string) (options : list string).

(** The message of each error: the format strings of [Validate]. [quote]
    is [strconv.Quote], which the verb [%q] applies. *)
Definition Error (quote : string -> string) (e : error) : string :=
  match e with
  | MissingConnection => "docker socket connection must be specified"
  | ConflictingTarget => "options container and image are mutually exclusive"
  | MissingTarget => "docker image or container must be specified to inspect"
  | MissingContainerForDiff => "please specify docker container"
  | ConflictingAuth =>
      "only specify dockercfg file or username/password pair for authentication"
  | MissingPasswordFile => "please specify password-file for the given username"
  | ChrootRequiresServe =>
      "change root can be used only when serving the image through webdav"
  | ResultsDirWithoutScanType =>
      "scan-result-dir can be used only when spacifing scan-type"
  | ResultsDirNotADirectory dir =>
      "scan-results-dir " ++ quote dir ++ " is not a directory"
  | TokenFileWithoutPostURL =>
      "post-results-url must be set to use post-results-token-file"
  | HTMLReportRequiresOpenSCAP =>
      "openscap-html-report can be used only when specifying scan-type as "
        ++ fmt.dquote ++ "openscap" ++ fmt.dquote
  | FileNotFound fl => fl ++ " does not exist"
  | MissingClamSocket => "clam-socket must be set to use clamav scan type"
  | InvalidScanType v options =>
      v ++ " is not one of the available scan-types which are "
        ++ fmt.v_strings options
  | InvalidPullPolicy v options =>
      v ++ " is not one of the available pull-policy options which are "
        ++ fmt.v_strings options
  end.

(** *** Execution of a method body

    [Validate] runs on the struct its receiver points to, reads and writes
    the memory of the slices and calls [os.Stat]; a machine state holds the
    struct, the memory and the log of the paths handed to [os.Stat], oldest
    first. A statement either completes normally with a value or executes
    [return e], which ends the method. *)
Record machine : Type := mkMachine {
  this : ImageInspectorOptions;
  heap : memory;
  stat_log : list string
}.

Inductive completion (A : Type) : Type :=
| Normal (a : A)
| Returned (e : option error).
Arguments Normal {A} a.
Arguments Returned {A} e.

Definition exec (A : Type) : Type := machine -> completion A * machine.

Definition ret {A : Type} (a : A) : exec A := fun m => (Normal a, m).

Definition bind {A B : Type} (c : exec A) (k : A -> exec B) : exec B :=
  fun m =>
    match c m with
    | (Normal a, m') => k a m'
    | (Returned e, m') => (Returned e, m')
    end.

Notation "x <- c ;; k" := (bind c (fun x => k))
  (at level 61, c at next level, right associativity).
Notation "c ;; k" := (bind c (fun _ => k))
  (at level 61, right associativity).

(** [return e] *)
Definition Return {A : Type} (e : option error) : exec A :=
  fun m => (Returned e, m).

(** Reading the struct the receiver [i] points to. *)
Definition self : exec ImageInspectorOptions :=
  fun m => (Normal (this m), m).

(** [if c { s }] *)
Definition when (c : bool) (s : exec unit) : exec unit :=
  if c then s else ret tt.

(** [for _, x := range s { body }]: [n] iterations from the cell at [a] on,
    each reading its element when it starts. *)
Fixpoint range_from (a n : nat) (body : string -> exec unit) : exec unit :=
  match n with
  | 0 => ret tt
  | S n' => (fun m => body (cells (heap m) a) m) ;; range_from (S a) n' body
  end.

Definition range (s : MultiStringVar) (body : string -> exec unit) : exec unit :=
  range_from (ptr s) (slice_len s) body.

(** The call [util.StringInList(s, l)] on a slice [l]: it reads the
    elements of [l] and changes nothing. *)
Definition StringInList_call (s : string) (l : MultiStringVar) : exec bool :=
  fun m => (Normal (util.StringInList s (elems (heap m) l)), m).

(** The method from the first state: the memory and the struct as the
    caller built them, and no [os.Stat] call made yet. *)
Definition start (h : memory) (i : ImageInspectorOptions) : machine :=
  {| this := i; heap := h; stat_log := [] |}.

(** Running statements one after the other; [return] ends the run. *)
Definition run (rs : list (exec unit)) : exec unit :=
  fold_right (fun r k => r ;; k) (ret tt) rs.

Section Validation.

(** The state of the filesystem during the call. *)
Variable fs : filesystem.
(** [iiapi.ScanOptions] and [iiapi.PullPolicyOptions], the closed domains
    of scan types and of pull policies, declared in package [api]. *)
Variable ScanOptions : list string.
Variable PullPolicyOptions : list string.
(** The growth policy of the Go runtime for [append]. *)
Variable grow : nat -> nat.

(** [os.Stat(name)]: the call is logged and answers what the filesystem
    holds for [name]. *)
Definition Stat (name : string) : exec stat_result :=
  fun m => (Normal (fs name),
            {| this := this m; heap := heap m; stat_log := stat_log m ++ [name] |}).

(** The expression [append(s, x)]: it evaluates to the extended slice and
    leaves the memory as [append] leaves it. *)
Definition go_append (s : MultiStringVar) (x : string) : exec MultiStringVar :=
  fun m =>
    let (r, h) := append grow (heap m) s x in
    (Normal r, {| this := this m; heap := h; stat_log := stat_log m |}).

(** The [if] statements of [Validate], in the order of the source. *)

Definition rule1 : exec unit :=
  i <- self ;;
  when (len (URI i) =? 0) (Return (Some MissingConnection)).

Definition rule2 : exec unit :=
  i <- self ;;
  when ((0 <? len (Image i)) && (0 <? len (Container i)))
    (Return (Some ConflictingTarget)).

Definition rule3 : exec unit :=
  i <- self ;;
  when ((len (Image i) =? 0) && (len (Container i) =? 0))
    (Return (Some MissingTarget)).

Definition rule4 : exec unit :=
  i <- self ;;
  when (ScanContainerChanges i && (len (Container i) =? 0))
    (Return (Some MissingContainerForDiff)).

Definition rule5 : exec unit :=
  i <- self ;;
  when ((0 <? slice_len (DockerCfg i)) && (0 <? len (Username i)))
    (Return (Some ConflictingAuth)).

Definition rule6 : exec unit :=
  i <- self ;;
  when ((0 <? len (Username i)) && (len (PasswordFile i) =? 0))
    (Return (Some MissingPasswordFile)).

Definition rule7 : exec unit :=
  i <- self ;;
  when ((len (Serve i) =? 0) && Chroot i)
    (Return (Some ChrootRequiresServe)).

Definition rule8 : exec unit :=
  i <- self ;;
  when ((0 <? len (ScanResultsDir i)) && (slice_len (ScanTypes i) =? 0))
    (Return (Some ResultsDirWithoutScanType)).

Definition rule9 : exec unit :=
  i <- self ;;
  when (0 <? len (ScanResultsDir i))
    (r <- Stat (ScanResultsDir i) ;;
     match r with
     | StatOk fi =>
         when (negb (IsDir fi))
           (Return (Some (ResultsDirNotADirectory (ScanResultsDir i))))
     | StatErr _ => ret tt
     end).

Definition rule10 : exec unit :=
  i <- self ;;
  when ((0 <? len (PostResultTokenFile i)) && (len (PostResultURL i) =? 0))
    (Return (Some TokenFileWithoutPostURL)).

Definition rule11 : exec unit :=
  i <- self ;;
  found <- StringInList_call "openscap" (ScanTypes i) ;;
  when (OpenScapHTML i && negb found)
    (Return (Some HTMLReportRequiresOpenSCAP)).

(** The body of the loop over the files. *)
Definition check_file (fl : string) : exec unit :=
  when (0 <? len fl)
    (r <- Stat fl ;;
     when (IsNotExist (err r)) (Return (Some (FileNotFound fl)))).

Definition rule12 : exec unit :=
  i <- self ;;
  files <- go_append (DockerCfg i) (PasswordFile i) ;;
  range files check_file.

Definition rule13 : exec unit :=
  i <- self ;;
  found <- StringInList_call "clamav" (ScanTypes i) ;;
  when (found && (len (ClamSocket i) =? 0))
    (Return (Some MissingClamSocket)).

Definition rule14 : exec unit :=
  i <- self ;;
  when (0 <? slice_len (ScanTypes i))
    (range (ScanTypes i) (fun v =>
       when (negb (util.StringInList v ScanOptions))
         (Return (Some (InvalidScanType v ScanOptions))))).

Definition rule15 : exec unit :=
  i <- self ;;
  when (negb (util.StringInList (PullPolicy i) PullPolicyOptions))
    (Return (Some (InvalidPullPolicy (PullPolicy i) PullPolicyOptions))).

(** [func (i *ImageInspectorOptions) Validate() error] *)
Definition Validate : exec unit :=
  rule1 ;; rule2 ;; rule3 ;; rule4 ;; rule5 ;; rule6 ;; rule7 ;; rule8 ;;
  rule9 ;; rule10 ;; rule11 ;; rule12 ;; rule13 ;; rule14 ;; rule15 ;;
  Return None.

(** The statements of [Validate] before its final [return nil]. *)
Definition rules : list (exec unit) :=
  [rule1; rule2; rule3; rule4; rule5; rule6; rule7; rule8;
   rule9; rule10; rule11; rule12; rule13; rule14; rule15].

(** What a call of [Validate] on the struct [i], with the memory [h],
    returns to its caller: [Some e] for [return e]. A body that ran to its
    end without [return] would give [None] here; [Validate] has none. *)
Definition outcome (h : memory) (i : ImageInspectorOptions) : option (option error) :=
  match fst (Validate (start h i)) with
  | Returned e => Some e
  | Normal _ => None
  end.

(** The memory after the call, and the [os.Stat] calls it made. The struct
    itself is never assigned to. *)
Definition after (h : memory) (i : ImageInspectorOptions) : memory :=
  heap (snd (Validate (start h i))).
Definition stat_calls (h : memory) (i : ImageInspectorOptions) : list string :=
  stat_log (snd (Validate (start h i))).

End Validation.

(** [oscapscanner.CVEUrl] and [iiapi.PullIfNotPresent] are constants of
    other packages, taken as arguments.
    [func NewDefaultImageInspectorOptions() *ImageInspectorOptions] *)
Definition NewDefaultImageInspectorOptions (CVEUrl PullIfNotPresent : string)
  : ImageInspectorOptions :=
  {| URI := DefaultDockerSocketLocation;
     Image := ""; Container := ""; ScanContainerChanges := false;
     DstPath := ""; Serve := ""; Chroot := false;
     DockerCfg := empty_slice;
     Username := ""; PasswordFile := "";
     ScanTypes := empty_slice;
     ScanResultsDir := ""; OpenScapHTML := false;
     CVEUrlPath := CVEUrl;
     ClamSocket := ""; PostResultURL := ""; PostResultTokenFile := "";
     AuthToken := ""; AuthTokenFile := "";
     PullPolicy := PullIfNotPresent |}.

End cmd.

(* ===================================================================== *)
(** ** The specification's reading of the validator *)
(* ===================================================================== *)
Module spec.
Import os.

(** The configuration of the specification's data model: a flat record
    whose repeated-flag fields are ordered sequences of strings. *)
Record Configuration : Type := mkConfiguration {
  ConnectionURI : string;
  ImageRef : string;
  ContainerRef : string;
  ScanContainerChanges : bool;
  DestinationPath : string;
  ServeAddress : string;
  ChrootOnServe : bool;
  RegistryConfigFiles : list string;
  Username : string;
  PasswordFile : string;
  ScanTypes : list string;
  ScanResultsDir : string;
  GenerateHTMLReport : bool;
  CVEFeedURL : string;
  ClamAVSocketPath : string;
  ResultPostURL : string;
  ResultPostTokenFile : string;
  AuthToken : string;
  AuthTokenFile : string;
  PullPolicy : string
}.

(** The configuration a Go struct stands for: each field by its meaning,
    a slice by the sequence of the elements it shows in the memory [h]. *)
Definition config_of (h : cmd.memory) (i : cmd.ImageInspectorOptions) : Configuration :=
  {| ConnectionURI := cmd.URI i;
     ImageRef := cmd.Image i;
     ContainerRef := cmd.Container i;
     ScanContainerChanges := cmd.ScanContainerChanges i;
     DestinationPath := cmd.DstPath i;
     ServeAddress := cmd.Serve i;
     ChrootOnServe := cmd.Chroot i;
     RegistryConfigFiles := cmd.elems h (cmd.DockerCfg i);
     Username := cmd.Username i;
     PasswordFile := cmd.PasswordFile i;
     ScanTypes := cmd.elems h (cmd.ScanTypes i);
     ScanResultsDir := cmd.ScanResultsDir i;
     GenerateHTMLReport := cmd.OpenScapHTML i;
     CVEFeedURL := cmd.CVEUrlPath i;
     ClamAVSocketPath := cmd.ClamSocket i;
     ResultPostURL := cmd.PostResultURL i;
     ResultPostTokenFile := cmd.PostResultTokenFile i;
     AuthToken := cmd.AuthToken i;
     AuthTokenFile := cmd.AuthTokenFile i;
     PullPolicy := cmd.PullPolicy i |}.

(** What a metadata lookup establishes about a path: an entry is there
    (with its description), no entry is there, or the lookup failed for
    another reason and establishes neither. *)
Inductive presence : Type :=
| Present (fi : FileInfo)
| Absent
| Unknown (e : Errno).

Definition lookup (fs : filesystem) (path : string) : presence :=
  match fs path with
  | StatOk fi => Present fi
  | StatErr e => if (e =? ENOENT)%Z then Absent else Unknown e
  end.

(** "a filesystem entry exists at that path" and it is not a directory. *)
Definition exists_not_directory (fs : filesystem) (path : string) : bool :=
  match lookup fs path with
  | Present fi => negb (IsDir fi)
  | _ => false
  end.

(** The path does not exist on the filesystem. *)
Definition missing (fs : filesystem) (path : string) : bool :=
  match lookup fs path with
  | Absent => true
  | _ => false
  end.

Definition nonempty (s : string) : bool := negb (String.eqb s "").

(** "true iff [item] equals some element of [domain]", by exact match. *)
Definition Contains (item : string) (domain : list string) : bool :=
  existsb (String.eqb item) domain.

Section Rules.

Variable fs : filesystem.
(** The enumerated domains of valid scan types and pull policies. *)
Variable scan_types : list string.
Variable pull_policies : list string.

(** A rule gives the failure it reports on a configuration that violates
    it, and nothing on one that satisfies it. *)
Definition rule : Type := Configuration -> option cmd.error.

(** The rule "if [c] then [e]". *)
Definition forbid (c : bool) (e : cmd.error) : option cmd.error :=
  if c then Some e else None.

(** The paths of rule 12, in their concatenation order. *)
Definition checked_files (c : Configuration) : list string :=
  RegistryConfigFiles c ++ [PasswordFile c].

(** The 15 rules of section 4.3, in the order the section lists them. *)
Definition validation_rules : list rule :=
  [ (* 1 *) fun c => forbid (negb (nonempty (ConnectionURI c))) cmd.MissingConnection;
    (* 2 *) fun c => forbid (nonempty (ImageRef c) && nonempty (ContainerRef c))
                       cmd.ConflictingTarget;
    (* 3 *) fun c => forbid (negb (nonempty (ImageRef c) || nonempty (ContainerRef c)))
                       cmd.MissingTarget;
    (* 4 *) fun c => forbid (ScanContainerChanges c && negb (nonempty (ContainerRef c)))
                       cmd.MissingContainerForDiff;
    (* 5 *) fun c => forbid (negb (length (RegistryConfigFiles c) =? 0)
                             && nonempty (Username c))
                       cmd.ConflictingAuth;
    (* 6 *) fun c => forbid (nonempty (Username c) && negb (nonempty (PasswordFile c)))
                       cmd.MissingPasswordFile;
    (* 7 *) fun c => forbid (negb (nonempty (ServeAddress c)) && ChrootOnServe c)
                       cmd.ChrootRequiresServe;
    (* 8 *) fun c => forbid (nonempty (ScanResultsDir c) && (length (ScanTypes c) =? 0))
                       cmd.ResultsDirWithoutScanType;
    (* 9 *) fun c => forbid (nonempty (ScanResultsDir c)
                             && exists_not_directory fs (ScanResultsDir c))
                       (cmd.ResultsDirNotADirectory (ScanResultsDir c));
    (* 10 *) fun c => forbid (nonempty (ResultPostTokenFile c)
                              && negb (nonempty (ResultPostURL c)))
                        cmd.TokenFileWithoutPostURL;
    (* 11 *) fun c => forbid (GenerateHTMLReport c
                              && negb (Contains "openscap" (ScanTypes c)))
                        cmd.HTMLReportRequiresOpenSCAP;
    (* 12 *) fun c => option_map cmd.FileNotFound
                        (find (fun p => nonempty p && missing fs p) (checked_files c));
    (* 13 *) fun c => forbid (Contains "clamav" (ScanTypes c)
                              && negb (nonempty (ClamAVSocketPath c)))
                        cmd.MissingClamSocket;
    (* 14 *) fun c => option_map (fun v => cmd.InvalidScanType v scan_types)
                        (find (fun v => negb (Contains v scan_types)) (ScanTypes c));
    (* 15 *) fun c => forbid (negb (Contains (PullPolicy c) pull_policies))
                        (cmd.InvalidPullPolicy (PullPolicy c) pull_policies) ].

(** The failure of the first rule of [rs] that the configuration violates. *)
Fixpoint first_violation (rs : list rule) (c : Configuration) : option cmd.error :=
  match rs with
  | [] => None
  | r :: rs' =>
      match r c with
      | Some e => Some e
      | None => first_violation rs' c
      end
  end.

(** Rule number [n] of the list, counted from 1 as the specification does. *)
Definition rule_no (n : nat) : rule :=
  nth (n - 1) validation_rules (fun _ => None).

(** The configuration satisfies rules 1 to [n]. *)
Definition passes_upto (n : nat) (c : Configuration) : Prop :=
  first_violation (firstn n validation_rules) c = None.

End Rules.

End spec.

(* ===================================================================== *)
(** ** Relating the method to the rules *)
(* ===================================================================== *)
Module refinement.
Import cmd spec.

(** How a statement that enforces a rule completes: [return e] on a
    violation with failure [e], normally otherwise. *)
Definition verdict (o : option error) : completion unit :=
  match o with
  | Some e => Returned (Some e)
  | None => Normal tt
  end.

(** A loop body run on each value of a list, in order. *)
Fixpoint for_range {A : Type} (l : list A) (body : A -> exec unit) : exec unit :=
  match l with
  | [] => ret tt
  | x :: l' => body x ;; for_range l' body
  end.

(** The statement [s] leaves the struct and the memory as it finds them. *)
Definition keeps (s : exec unit) : Prop :=
  forall m, this (snd (s m)) = this m /\ heap (snd (s m)) = heap m.

(** The statement [s] decides the rule [r]: from every state it completes
    as the rule decides on the configuration the struct stands for in the
    memory of that state. *)
Definition decides (s : exec unit) (r : rule) : Prop :=
  forall m, fst (s m) = verdict (r (config_of (heap m) (this m))).

(** The statement [s] enforces the rule [r]: it decides it, and leaves the
    struct and the memory as it finds them. *)
Definition enforces (s : exec unit) (r : rule) : Prop :=
  decides s r /\ keeps s.

(** The statement [s] leaves the state as it finds it: the struct, the
    memory and the log of lookups. *)
Definition stateless (s : exec unit) : Prop := forall m, snd (s m) = m.

(** The cells [append(s, x)] assigns to in the memory [h]: the cell behind
    the last element when [s] has spare capacity, the cells of the new
    array otherwise. *)
Definition append_writes (grow : nat -> nat) (h : memory) (s : MultiStringVar)
    (a : nat) : bool :=
  if slice_len s <? slice_cap s then a =? ptr s + slice_len s
  else (brk h <=? a) && (a <? brk h + (S (slice_len s) + grow (slice_cap s))).

(** No cell the slice [sv] shows is assigned to by [append(s, x)]. *)
Definition apart (grow : nat -> nat) (h : memory) (s sv : MultiStringVar) : bool :=
  forallb (fun a => negb (append_writes grow h s a)) (seq (ptr sv) (slice_len sv)).

(** The [append] of [Validate] assigns to no cell that [ScanTypes] shows. *)
Definition ScanTypes_apart (grow : nat -> nat) (h : memory)
    (i : ImageInspectorOptions) : bool :=
  apart grow h (DockerCfg i) (cmd.ScanTypes i).

(** The [append] of [Validate] assigns to no cell that [DockerCfg] or
    [ScanTypes] shows. *)
Definition slices_apart (grow : nat -> nat) (h : memory)
    (i : ImageInspectorOptions) : bool :=
  apart grow h (DockerCfg i) (DockerCfg i) && apart grow h (DockerCfg i) (cmd.ScanTypes i).

(** The memory as the [append] of [Validate] leaves it. *)
Definition appended (grow : nat -> nat) (h : memory) (i : ImageInspectorOptions)
  : memory :=
  snd (append grow h (DockerCfg i) (cmd.PasswordFile i)).

End refinement.

(* ===================================================================== *)
(** ** Concrete inputs used below *)
(* ===================================================================== *)
Module examples.
Import os.

(** Modelled from the spec: [iiapi.ScanOptions] and
    [iiapi.PullPolicyOptions] are declared in package [api], whose source
    is not at hand; section 6 names these members. [Validate] itself takes
    the two domains as arguments. *)
Definition scan_options : list string := ["openscap"; "clamav"].
Definition pull_policy_options : list string := ["always"; "if-not-present"; "never"].

(** A runtime that doubles the capacity when it reallocates: of the [2 * c]
    new cells ([1] when [c = 0]), [c + 1] are taken. *)
Definition doubling (c : nat) : nat := c - 1.

Definition a_directory : FileInfo :=
  {| Name := "results"; Size := 4096%Z; Mode := Z.lor ModeDir 493 |}.
Definition a_regular_file : FileInfo :=
  {| Name := "dockercfg"; Size := 120%Z; Mode := 420%Z |}.

(** A filesystem with a directory, two regular files, a path that cannot
    be examined, and nothing else. *)
Definition disk : filesystem :=
  fun path =>
    if String.eqb path "/var/results" then StatOk a_directory
    else if String.eqb path "/root/.dockercfg" then StatOk a_regular_file
    else if String.eqb path "/tmp/existing-file-not-dir" then StatOk a_regular_file
    else if String.eqb path "/locked/secret" then StatErr EACCES
    else StatErr ENOENT.

(** A memory whose allocated cells hold [l], from address 0 on. *)
Definition memory_of (l : list string) : cmd.memory :=
  {| cmd.cells := fun a => nth a l EmptyString; cmd.brk := length l |}.

(** Two arrays, one behind the other, each as long as what it holds; and
    the slice on each, without spare capacity. *)
Definition built (first second : list string) : cmd.memory :=
  memory_of (first ++ second).
Definition first_slice (first : list string) : cmd.MultiStringVar :=
  cmd.mkSlice 0 (length first) (length first).
Definition second_slice (first second : list string) : cmd.MultiStringVar :=
  cmd.mkSlice (length first) (length second) (length second).

(** All fields zero-valued. *)
Definition zero : cmd.ImageInspectorOptions :=
  {| cmd.URI := ""; cmd.Image := ""; cmd.Container := "";
     cmd.ScanContainerChanges := false; cmd.DstPath := ""; cmd.Serve := "";
     cmd.Chroot := false; cmd.DockerCfg := cmd.mkSlice 0 0 0;
     cmd.Username := ""; cmd.PasswordFile := "";
     cmd.ScanTypes := cmd.mkSlice 0 0 0; cmd.ScanResultsDir := "";
     cmd.OpenScapHTML := false; cmd.CVEUrlPath := ""; cmd.ClamSocket := "";
     cmd.PostResultURL := ""; cmd.PostResultTokenFile := "";
     cmd.AuthToken := ""; cmd.AuthTokenFile := ""; cmd.PullPolicy := "" |}.

(** A struct as flag parsing fills it: the default socket, and the fields
    given; every other field zero-valued. Its slices are those of the
    memory [built dockerCfg scanTypes]. *)
Definition options (image container : string) (scanChanges : bool)
    (dockerCfg : list string) (passwordFile : string) (scanTypes : list string)
    (scanResultsDir : string) (pullPolicy : string) : cmd.ImageInspectorOptions :=
  {| cmd.URI := cmd.DefaultDockerSocketLocation;
     cmd.Image := image; cmd.Container := container;
     cmd.ScanContainerChanges := scanChanges; cmd.DstPath := ""; cmd.Serve := "";
     cmd.Chroot := false; cmd.DockerCfg := first_slice dockerCfg;
     cmd.Username := ""; cmd.PasswordFile := passwordFile;
     cmd.ScanTypes := second_slice dockerCfg scanTypes;
     cmd.ScanResultsDir := scanResultsDir;
     cmd.OpenScapHTML := false; cmd.CVEUrlPath := ""; cmd.ClamSocket := "";
     cmd.PostResultURL := ""; cmd.PostResultTokenFile := "";
     cmd.AuthToken := ""; cmd.AuthTokenFile := ""; cmd.PullPolicy := pullPolicy |}.

(** An image and a container at once, in container-diff mode. *)
Definition both_targets : cmd.ImageInspectorOptions :=
  options "busybox" "abc" true [] "" [] "" "always".

(** Violates rules 9, 12, 14 and 15 at once; in the memory
    [built [] ["bogus"]]. *)
Definition many_faults : cmd.ImageInspectorOptions :=
  options "busybox" "" false [] "/no/such/password" ["bogus"]
    "/tmp/existing-file-not-dir" "sometimes".

(** The first registry file is there, the second path is empty, the third
    and the password file are missing. *)
Definition registry_files : list string := ["/root/.dockercfg"; ""; "/missing/a"].
Definition missing_files : cmd.ImageInspectorOptions :=
  options "busybox" "" false registry_files "/missing/pw" [] "" "always".

(** The scenario of the results directory that is a regular file; in the
    memory [built [] ["openscap"]]. *)
Definition results_in_a_file : cmd.ImageInspectorOptions :=
  options "busybox" "" false [] "" ["openscap"] "/tmp/existing-file-not-dir" "always".

(** Every path the validator looks up is one that cannot be examined; in
    the memory [built ["/locked/secret"] ["openscap"]]. *)
Definition locked_paths : cmd.ImageInspectorOptions :=
  options "busybox" "" false ["/locked/secret"] "/locked/secret" ["openscap"]
    "/locked/secret" "always".

(** The clamav scenario: the socket, an image, one scan type, and every
    other field zero-valued. [ScanTypes] is a slice of length 1 on an array
    that holds the scan type followed by the spare cells [spare]. *)
Definition clamav_memory (spare : list string) : cmd.memory :=
  memory_of ("clamav" :: spare).
Definition clamav_scenario (spare : list string) : cmd.ImageInspectorOptions :=
  {| cmd.URI := "unix:///var/run/docker.sock";
     cmd.Image := "busybox"; cmd.Container := "";
     cmd.ScanContainerChanges := false; cmd.DstPath := ""; cmd.Serve := "";
     cmd.Chroot := false; cmd.DockerCfg := cmd.mkSlice 0 0 0;
     cmd.Username := ""; cmd.PasswordFile := "";
     cmd.ScanTypes := cmd.mkSlice 0 1 (S (length spare)); cmd.ScanResultsDir := "";
     cmd.OpenScapHTML := false; cmd.CVEUrlPath := ""; cmd.ClamSocket := "";
     cmd.PostResultURL := ""; cmd.PostResultTokenFile := "";
     cmd.AuthToken := ""; cmd.AuthTokenFile := ""; cmd.PullPolicy := "" |}.

(** One array of two cells, a registry file and a scan type, with both
    slices on it: [DockerCfg] is its first cell with the second as spare
    capacity, [ScanTypes] is its second cell. In Go:
    [arr := []string{cfg, "openscap"}], [DockerCfg: arr[0:1]],
    [ScanTypes: arr[1:2]]. *)
Definition one_array : cmd.memory := memory_of ["/root/.dockercfg"; "openscap"].
Definition on_one_array : cmd.ImageInspectorOptions :=
  {| cmd.URI := cmd.DefaultDockerSocketLocation;
     cmd.Image := "busybox"; cmd.Container := "";
     cmd.ScanContainerChanges := false; cmd.DstPath := ""; cmd.Serve := "";
     cmd.Chroot := false; cmd.DockerCfg := cmd.mkSlice 0 1 2;
     cmd.Username := ""; cmd.PasswordFile := "/root/.dockercfg";
     cmd.ScanTypes := cmd.mkSlice 1 1 1; cmd.ScanResultsDir := "";
     cmd.OpenScapHTML := false; cmd.CVEUrlPath := ""; cmd.ClamSocket := "";
     cmd.PostResultURL := ""; cmd.PostResultTokenFile := "";
     cmd.AuthToken := ""; cmd.AuthTokenFile := ""; cmd.PullPolicy := "always" |}.

(** The same field values with a slice [DockerCfg] that has no spare
    capacity: [DockerCfg: arr[0:1:1]]. *)
Definition on_two_arrays : cmd.ImageInspectorOptions :=
  options "busybox" "" false ["/root/.dockercfg"] "/root/.dockercfg" ["openscap"]
    "" "always".

(** One registry file in a backing array of three cells: two cells of
    spare capacity, with what earlier uses left in them; no scan type. *)
Definition spare_cells : cmd.memory := memory_of ["/root/.dockercfg"; "old"; "cells"].
Definition with_spare_capacity : cmd.ImageInspectorOptions :=
  {| cmd.URI := cmd.DefaultDockerSocketLocation;
     cmd.Image := ""; cmd.Container := "abc";
     cmd.ScanContainerChanges := true; cmd.DstPath := ""; cmd.Serve := "";
     cmd.Chroot := false; cmd.DockerCfg := cmd.mkSlice 0 1 3;
     cmd.Username := ""; cmd.PasswordFile := "/root/.dockercfg";
     cmd.ScanTypes := cmd.mkSlice 3 0 0; cmd.ScanResultsDir := "";
     cmd.OpenScapHTML := false; cmd.CVEUrlPath := ""; cmd.ClamSocket := "";
     cmd.PostResultURL := ""; cmd.PostResultTokenFile := "";
     cmd.AuthToken := ""; cmd.AuthTokenFile := ""; cmd.PullPolicy := "never" |}.

(** The same configuration in a struct whose slice is full; in the memory
    [built ["/root/.dockercfg"] []]. *)
Definition without_spare_capacity : cmd.ImageInspectorOptions :=
  options "" "abc" true ["/root/.dockercfg"] "/root/.dockercfg" [] "" "never".

End examples.

(* ===================================================================== *)
(** ** The caller's side of the struct *)
(* ===================================================================== *)
Module caller.
Import os cmd.

(** The assignments [i.Image = image], [i.Container = container] and
    [i.ScanContainerChanges = diff]. *)
Definition with_target (image container : string) (diff : bool)
    (i : ImageInspectorOptions) : ImageInspectorOptions :=
  {| URI := URI i; Image := image; Container := container;
     ScanContainerChanges := diff; DstPath := DstPath i;
     Serve := Serve i; Chroot := Chroot i; DockerCfg := DockerCfg i;
     Username := Username i; PasswordFile := PasswordFile i;
     ScanTypes := ScanTypes i; ScanResultsDir := ScanResultsDir i;
     OpenScapHTML := OpenScapHTML i; CVEUrlPath := CVEUrlPath i;
     ClamSocket := ClamSocket i; PostResultURL := PostResultURL i;
     PostResultTokenFile := PostResultTokenFile i; AuthToken := AuthToken i;
     AuthTokenFile := AuthTokenFile i; PullPolicy := PullPolicy i |}.

(** The assignments to the four fields [Validate] has no statement about:
    [DstPath], [CVEUrlPath], [AuthToken] and [AuthTokenFile]. *)
Definition with_unchecked (dstPath cveUrlPath authToken authTokenFile : string)
    (i : ImageInspectorOptions) : ImageInspectorOptions :=
  {| URI := URI i; Image := Image i; Container := Container i;
     ScanContainerChanges := ScanContainerChanges i; DstPath := dstPath;
     Serve := Serve i; Chroot := Chroot i; DockerCfg := DockerCfg i;
     Username := Username i; PasswordFile := PasswordFile i;
     ScanTypes := ScanTypes i; ScanResultsDir := ScanResultsDir i;
     OpenScapHTML := OpenScapHTML i; CVEUrlPath := cveUrlPath;
     ClamSocket := ClamSocket i; PostResultURL := PostResultURL i;
     PostResultTokenFile := PostResultTokenFile i; AuthToken := authToken;
     AuthTokenFile := authTokenFile; PullPolicy := PullPolicy i |}.

(** A flag given several times: one call of [Set] per value, in order. *)
Definition Set_all (grow : nat -> nat) (st : MultiStringVar * memory)
    (values : list string) : MultiStringVar * memory :=
  fold_left (Set_ grow) values st.

(** The paths [Validate] hands to [os.Stat] when no statement returns
    early, in the order of the calls: the results directory if it is
    named, then each named file of [DockerCfg], then the password file if
    it is named. *)
Definition lookups (h : memory) (i : ImageInspectorOptions) : list string :=
  (if 0 <? len (ScanResultsDir i) then [ScanResultsDir i] else [])
  ++ filter (fun fl => 0 <? len fl) (elems h (DockerCfg i) ++ [PasswordFile i]).

(** [l1] is an initial segment of [l2]. *)
Definition initial_segment (l1 l2 : list string) : Prop :=
  exists rest, l2 = l1 ++ rest.

(** The state holds the struct [i] and the memory [h]. *)
Definition holds (h : memory) (i : ImageInspectorOptions) (m : machine) : Prop :=
  this m = i /\ heap m = h.

(** From every state that satisfies [P], the statement [s] hands to
    [os.Stat] an initial segment of [L]; if it completes normally it has
    handed all of [L] and leaves a state that satisfies [Q]. *)
Definition looks_up (P : machine -> Prop) (s : exec unit) (L : list string)
    (Q : machine -> Prop) : Prop :=
  forall m,
    P m ->
    exists l,
      stat_log (snd (s m)) = stat_log m ++ l
      /\ initial_segment l L
      /\ (fst (s m) = Normal tt -> l = L /\ Q (snd (s m))).

(** The configuration with its two sequences de-duplicated by
    [util.Unique]. *)
Definition deduplicated (c : spec.Configuration) : spec.Configuration :=
  {| spec.ConnectionURI := spec.ConnectionURI c;
     spec.ImageRef := spec.ImageRef c;
     spec.ContainerRef := spec.ContainerRef c;
     spec.ScanContainerChanges := spec.ScanContainerChanges c;
     spec.DestinationPath := spec.DestinationPath c;
     spec.ServeAddress := spec.ServeAddress c;
     spec.ChrootOnServe := spec.ChrootOnServe c;
     spec.RegistryConfigFiles := util.Unique (spec.RegistryConfigFiles c);
     spec.Username := spec.Username c;
     spec.PasswordFile := spec.PasswordFile c;
     spec.ScanTypes := util.Unique (spec.ScanTypes c);
     spec.ScanResultsDir := spec.ScanResultsDir c;
     spec.GenerateHTMLReport := spec.GenerateHTMLReport c;
     spec.CVEFeedURL := spec.CVEFeedURL c;
     spec.ClamAVSocketPath := spec.ClamAVSocketPath c;
     spec.ResultPostURL := spec.ResultPostURL c;
     spec.ResultPostTokenFile := spec.ResultPostTokenFile c;
     spec.AuthToken := spec.AuthToken c;
     spec.AuthTokenFile := spec.AuthTokenFile c;
     spec.PullPolicy := spec.PullPolicy c |}.

Section Conditions.

Variable fs : filesystem.
Variable ScanOptions : list string.
Variable PullPolicyOptions : list string.

(** The conditions of the [if] statements of [Validate], each negated: what
    holds of a struct, with the memory [h], on which none of them fires. *)
Definition accepted (h : memory) (i : ImageInspectorOptions) : Prop :=
  URI i <> ""
  /\ ~ (Image i <> "" /\ Container i <> "")
  /\ ~ (Image i = "" /\ Container i = "")
  /\ (ScanContainerChanges i = true -> Container i <> "")
  /\ ~ (elems h (DockerCfg i) <> [] /\ Username i <> "")
  /\ (Username i <> "" -> PasswordFile i <> "")
  /\ (Chroot i = true -> Serve i <> "")
  /\ (ScanResultsDir i <> "" -> elems h (ScanTypes i) <> [])
  /\ (ScanResultsDir i <> "" ->
      forall fi, fs (ScanResultsDir i) = StatOk fi -> IsDir fi = true)
  /\ (PostResultTokenFile i <> "" -> PostResultURL i <> "")
  /\ (OpenScapHTML i = true -> In "openscap" (elems h (ScanTypes i)))
  /\ (forall fl, In fl (elems h (DockerCfg i) ++ [PasswordFile i]) ->
      fl <> "" -> fs fl <> StatErr ENOENT)
  /\ (In "clamav" (elems h (ScanTypes i)) -> ClamSocket i <> "")
  /\ (forall v, In v (elems h (ScanTypes i)) -> In v ScanOptions)
  /\ In (PullPolicy i) PullPolicyOptions.

(** The condition of the [if] statement that builds each error. *)
Definition cause (h : memory) (i : ImageInspectorOptions) (e : error) : Prop :=
  match e with
  | MissingConnection => URI i = ""
  | ConflictingTarget => Image i <> "" /\ Container i <> ""
  | MissingTarget => Image i = "" /\ Container i = ""
  | MissingContainerForDiff => ScanContainerChanges i = true /\ Container i = ""
  | ConflictingAuth => elems h (DockerCfg i) <> [] /\ Username i <> ""
  | MissingPasswordFile => Username i <> "" /\ PasswordFile i = ""
  | ChrootRequiresServe => Serve i = "" /\ Chroot i = true
  | ResultsDirWithoutScanType =>
      ScanResultsDir i <> "" /\ elems h (ScanTypes i) = []
  | ResultsDirNotADirectory dir =>
      dir = ScanResultsDir i /\ dir <> ""
      /\ exists fi, fs dir = StatOk fi /\ IsDir fi = false
  | TokenFileWithoutPostURL => PostResultTokenFile i <> "" /\ PostResultURL i = ""
  | HTMLReportRequiresOpenSCAP =>
      OpenScapHTML i = true /\ ~ In "openscap" (elems h (ScanTypes i))
  | FileNotFound fl =>
      In fl (elems h (DockerCfg i) ++ [PasswordFile i])
      /\ fl <> "" /\ fs fl = StatErr ENOENT
  | MissingClamSocket => In "clamav" (elems h (ScanTypes i)) /\ ClamSocket i = ""
  | InvalidScanType v options =>
      options = ScanOptions /\ In v (elems h (ScanTypes i)) /\ ~ In v ScanOptions
  | InvalidPullPolicy v options =>
      options = PullPolicyOptions /\ v = PullPolicy i
      /\ ~ In v PullPolicyOptions
  end.

End Conditions.

End caller.

(* ===================================================================== *)
(** ** More concrete inputs *)
(* ===================================================================== *)
Module scenarios.
Import cmd.

(** The fields a scenario sets, in this order: image, container, diff mode,
    serve address, chroot, registry files, username, password file, scan
    types, results directory, HTML report, clam socket, post URL, post
    token file, pull policy. The socket is the default one; the four
    unchecked fields are empty. Its slices are those of the memory
    [examples.built dockerCfg scanTypes]. *)
Definition scenario (image container : string) (diff : bool) (serve : string)
    (chroot : bool) (dockerCfg : list string) (username passwordFile : string)
    (scanTypes : list string) (scanResultsDir : string) (html : bool)
    (clamSocket postResultURL postResultTokenFile pullPolicy : string)
  : ImageInspectorOptions :=
  {| URI := DefaultDockerSocketLocation; Image := image; Container := container;
     ScanContainerChanges := diff; DstPath := ""; Serve := serve; Chroot := chroot;
     DockerCfg := examples.first_slice dockerCfg; Username := username;
     PasswordFile := passwordFile;
     ScanTypes := examples.second_slice dockerCfg scanTypes;
     ScanResultsDir := scanResultsDir; OpenScapHTML := html; CVEUrlPath := "";
     ClamSocket := clamSocket; PostResultURL := postResultURL;
     PostResultTokenFile := postResultTokenFile; AuthToken := "";
     AuthTokenFile := ""; PullPolicy := pullPolicy |}.

Definition no_target : ImageInspectorOptions :=
  scenario "" "" true "" false [] "" "" [] "" false "" "" "" "always".
Definition diff_of_an_image : ImageInspectorOptions :=
  scenario "busybox" "" true "" false [] "" "" [] "" false "" "" "" "always".
Definition two_credentials : ImageInspectorOptions :=
  scenario "busybox" "" false "" false ["/root/.dockercfg"] "admin" "" [] "" false
    "" "" "" "always".
Definition no_password : ImageInspectorOptions :=
  scenario "busybox" "" false "" false [] "admin" "" [] "" false "" "" "" "always".
Definition chroot_alone : ImageInspectorOptions :=
  scenario "busybox" "" false "" true [] "" "" [] "" false "" "" "" "always".
Definition results_without_scan : ImageInspectorOptions :=
  scenario "busybox" "" false "" false [] "" "" [] "/tmp/existing-file-not-dir"
    false "" "" "" "always".
Definition token_without_url : ImageInspectorOptions :=
  scenario "busybox" "" false "" false [] "" "" [] "" false "" "" "/run/token"
    "always".
Definition html_without_openscap : ImageInspectorOptions :=
  scenario "busybox" "" false "" false [] "" "" ["clamav"] "" true "/run/clamd.sock"
    "" "" "always".
Definition clamav_alone : ImageInspectorOptions :=
  scenario "busybox" "" false "" false [] "" "" ["openscap"; "clamav"] "" false ""
    "" "" "always".
Definition unknown_scan_types : ImageInspectorOptions :=
  scenario "busybox" "" false "" false [] "" "" ["openscap"; "bogus"; "worse"] ""
    false "" "" "" "always".
Definition odd_pull_policy : ImageInspectorOptions :=
  scenario "busybox" "" false "" false [] "" "" ["openscap"] "" false "" "" ""
    "sometimes".

(** The shared array with a scan type that needs a socket in its second
    cell. *)
Definition clamav_array : memory :=
  examples.memory_of ["/root/.dockercfg"; "clamav"].

End scenarios.

Module util_facts.
Import util.

(** *** Membership *)

Lemma StringInList_In (s : string) (l : list string) :
  StringInList s l = true <-> In s l.
Proof.
  induction l as [|opt l IH]; simpl.
  - split; [discriminate | tauto].
  - destruct (String.eqb_spec s opt) as [->|Hne].
    + split; auto.
    + rewrite IH. split; [auto | intros [E|H]; [congruence | exact H]].
Qed.

Lemma StringInList_false (s : string) (l : list string) :
  StringInList s l = false <-> ~ In s l.
Proof.
  rewrite <- StringInList_In. destruct (StringInList s l); split; intros; congruence.
Qed.

Lemma StringInList_app (s : string) (l1 l2 : list string) :
  StringInList s (l1 ++ l2) = StringInList s l1 || StringInList s l2.
Proof.
  induction l1 as [|x l1 IH]; simpl; [reflexivity|].
  destruct (String.eqb s x); [reflexivity | exact IH].
Qed.

(** *** The loop of [Unique], one element at a time *)

Lemma Unique_snoc (a : list string) (v : string) :
  Unique (a ++ [v]) = Unique_step (Unique a) v.
Proof. unfold Unique. rewrite fold_left_app. reflexivity. Qed.

Lemma Unique_In (a : list string) (x : string) : In x (Unique a) <-> In x a.
Proof.
  induction a as [|v a IH] using rev_ind; [reflexivity|].
  rewrite Unique_snoc. unfold Unique_step.
  destruct (StringInList v (Unique a)) eqn:E; simpl.
  - apply StringInList_In in E. rewrite in_app_iff. simpl.
    split; [tauto|]. intros [H|[<-|[]]]; tauto.
  - rewrite !in_app_iff. tauto.
Qed.

Lemma Unique_mem (a : list string) (x : string) :
  StringInList x (Unique a) = StringInList x a.
Proof.
  destruct (StringInList x a) eqn:E.
  - apply StringInList_In, Unique_In, StringInList_In. exact E.
  - apply StringInList_false. rewrite Unique_In. apply StringInList_false. exact E.
Qed.

Lemma Unique_NoDup (a : list string) : NoDup (Unique a).
Proof.
  induction a as [|v a IH] using rev_ind; [constructor|].
  rewrite Unique_snoc. unfold Unique_step.
  destruct (StringInList v (Unique a)) eqn:E; simpl; [exact IH|].
  apply StringInList_false in E.
  apply NoDup_rev in IH. rewrite <- (rev_involutive (Unique a ++ [v])).
  apply NoDup_rev. rewrite rev_app_distr. simpl.
  constructor; [rewrite <- in_rev; exact E | exact IH].
Qed.

Lemma Unique_fixes_NoDup (l : list string) : NoDup l -> Unique l = l.
Proof.
  induction l as [|v l IH] using rev_ind; intros H; [reflexivity|].
  rewrite Unique_snoc.
  assert (Hl : NoDup l /\ ~ In v l).
  { apply NoDup_rev in H. rewrite rev_app_distr in H. simpl in H.
    inversion H as [|? ? Hn Hd]; subst. split.
    - rewrite <- (rev_involutive l). apply NoDup_rev. exact Hd.
    - rewrite in_rev. exact Hn. }
  destruct Hl as [Hd Hn]. rewrite (IH Hd). unfold Unique_step.
  apply StringInList_false in Hn. rewrite Hn. reflexivity.
Qed.

(** *** First occurrences *)

Lemma first_index_snoc (x v : string) (l : list string) :
  first_index x (l ++ [v]) =
  if StringInList x l then first_index x l
  else if String.eqb x v then length l else S (length l).
Proof.
  induction l as [|y l IH]; simpl.
  - destruct (String.eqb x v); reflexivity.
  - destruct (String.eqb x y); [reflexivity|]. rewrite IH.
    destruct (StringInList x l); [reflexivity|].
    destruct (String.eqb x v); reflexivity.
Qed.

Lemma first_index_lt (x : string) (l : list string) :
  StringInList x l = true -> first_index x l < length l.
Proof.
  induction l as [|y l IH]; simpl; [discriminate|].
  destruct (String.eqb x y); intros H; [lia | specialize (IH H); lia].
Qed.

Lemma count_occ_NoDup_mem (l : list string) (v : string) :
  NoDup l ->
  count_occ string_dec l v = if StringInList v l then 1 else 0.
Proof.
  intros H. destruct (StringInList v l) eqn:E.
  - apply StringInList_In in E.
    pose proof (proj1 (NoDup_count_occ string_dec l) H v) as Hle.
    apply (count_occ_In string_dec) in E. lia.
  - apply StringInList_false in E.
    apply (count_occ_not_In string_dec). exact E.
Qed.

Lemma Unique_order (a : list string) (x y : string) :
  In x a -> In y a ->
  (first_index x (Unique a) < first_index y (Unique a)
   <-> first_index x a < first_index y a).
Proof.
  induction a as [|v a IH] using rev_ind; [intros []|].
  intros Hx Hy. rewrite Unique_snoc. unfold Unique_step.
  rewrite !(first_index_snoc _ v a).
  destruct (StringInList v (Unique a)) eqn:Ev; simpl.
  - rewrite Unique_mem in Ev.
    assert (Hx' : StringInList x a = true).
    { apply StringInList_In. apply in_app_iff in Hx as [H|[<-|[]]];
        [exact H | apply StringInList_In; exact Ev]. }
    assert (Hy' : StringInList y a = true).
    { apply StringInList_In. apply in_app_iff in Hy as [H|[<-|[]]];
        [exact H | apply StringInList_In; exact Ev]. }
    rewrite Hx', Hy'. apply IH; apply StringInList_In; assumption.
  - rewrite !first_index_snoc, !Unique_mem.
    pose proof (Unique_mem a v) as Hv. rewrite Ev in Hv.
    destruct (StringInList x a) eqn:Ex; destruct (StringInList y a) eqn:Ey.
    + apply IH; apply StringInList_In; assumption.
    + assert (y = v) as ->.
      { apply in_app_iff in Hy as [H|[E|[]]]; [|congruence].
        apply StringInList_In in H. congruence. }
      rewrite String.eqb_refl.
      pose proof (first_index_lt x a Ex).
      pose proof (first_index_lt x (Unique a)) as H1.
      rewrite Unique_mem in H1. specialize (H1 Ex). lia.
    + assert (x = v) as ->.
      { apply in_app_iff in Hx as [H|[E|[]]]; [|congruence].
        apply StringInList_In in H. congruence. }
      rewrite String.eqb_refl.
      pose proof (first_index_lt y a Ey).
      pose proof (first_index_lt y (Unique a)) as H1.
      rewrite Unique_mem in H1. specialize (H1 Ey). lia.
    + assert (x = v) as ->.
      { apply in_app_iff in Hx as [H|[E|[]]]; [|congruence].
        apply StringInList_In in H. congruence. }
      assert (y = v) as ->.
      { apply in_app_iff in Hy as [H|[E|[]]]; [|congruence].
        apply StringInList_In in H. congruence. }
      rewrite String.eqb_refl. lia.
Qed.

(** C7. [Unique] returns every distinct value of its input exactly once
    (a value that does not occur in the input does not occur in the
    output), the values come in the order of their first occurrences in
    the input, and [Unique] is idempotent. *)
Theorem Unique_dedup_first_occurrence_idempotent (a : list string) :
  (forall v, count_occ string_dec (Unique a) v = if StringInList v a then 1 else 0)
  /\ (forall x y, StringInList x a = true -> StringInList y a = true ->
        (first_index x (Unique a) < first_index y (Unique a)
         <-> first_index x a < first_index y a))
  /\ Unique (Unique a) = Unique a.
Proof.
  split; [|split].
  - intros v. rewrite (count_occ_NoDup_mem _ _ (Unique_NoDup a)).
    rewrite Unique_mem. reflexivity.
  - intros x y Hx Hy. apply Unique_order; apply StringInList_In; assumption.
  - apply Unique_fixes_NoDup, Unique_NoDup.
Qed.

Lemma Unique_on_scan_types :
  StringInList "clamav" ["clamav"; "openscap"; "clamav"] = true
  /\ StringInList "openscap" ["clamav"; "openscap"; "clamav"] = true
  /\ (first_index "clamav" (Unique ["clamav"; "openscap"; "clamav"])
       < first_index "openscap" (Unique ["clamav"; "openscap"; "clamav"])
      <-> first_index "clamav" ["clamav"; "openscap"; "clamav"]
          < first_index "openscap" ["clamav"; "openscap"; "clamav"]).
Proof.
  split; [reflexivity|]. split; [reflexivity|].
  apply (Unique_dedup_first_occurrence_idempotent
           ["clamav"; "openscap"; "clamav"]); reflexivity.
Defined.

Example Unique_run :
  Unique ["clamav"; "openscap"; "clamav"; ""; "openscap"] = ["clamav"; "openscap"; ""].
Proof. reflexivity. Qed.

End util_facts.

(* ===================================================================== *)
(** ** Properties of [Validate] *)
(* ===================================================================== *)

(* ===================================================================== *)
(** ** Properties of [Validate] *)
(* ===================================================================== *)
Module cmd_facts.
Import os cmd spec refinement.

(** *** Strings and membership *)

Lemma len_zero (s : string) : (len s =? 0) = negb (nonempty s).
Proof. destruct s; reflexivity. Qed.

Lemma len_pos (s : string) : (0 <? len s) = nonempty s.
Proof. destruct s; reflexivity. Qed.

Lemma nonempty_true (s : string) : nonempty s = true <-> s <> "".
Proof. destruct s; cbn; split; intros H; try congruence; discriminate. Qed.

Lemma nonempty_false (s : string) : nonempty s = false <-> s = "".
Proof. destruct s; cbn; split; intros H; try congruence; discriminate. Qed.

Lemma length_zero {A : Type} (l : list A) :
  (0 <? length l) = negb (length l =? 0).
Proof. destruct l; reflexivity. Qed.

Lemma StringInList_Contains (s : string) (l : list string) :
  util.StringInList s l = Contains s l.
Proof.
  induction l as [|opt l IH]; simpl; [reflexivity|].
  rewrite IH. destruct (String.eqb s opt); reflexivity.
Qed.

#[local] Arguments Contains : simpl never.
#[local] Arguments nonempty : simpl never.
#[local] Arguments missing : simpl never.
#[local] Arguments exists_not_directory : simpl never.

Lemma missing_ENOENT (fs : filesystem) (path : string) :
  missing fs path = true <-> fs path = StatErr ENOENT.
Proof.
  unfold missing, lookup. destruct (fs path) as [fi|e].
  - split; discriminate.
  - destruct (Z.eqb_spec e ENOENT) as [->|Hne]; split; intros H;
      try reflexivity; try discriminate. congruence.
Qed.

Lemma find_first {A : Type} (P : A -> bool) (before after : list A) (x : A) :
  (forall y, In y before -> P y = false) -> P x = true ->
  find P (before ++ x :: after) = Some x.
Proof.
  intros Hb Hx. induction before as [|y before IH]; cbn.
  - rewrite Hx. reflexivity.
  - rewrite (Hb y (or_introl eq_refl)). apply IH. intros z Hz. apply Hb. right. exact Hz.
Qed.

Lemma find_none_iff {A : Type} (P : A -> bool) (l : list A) :
  (forall y, In y l -> P y = false) -> find P l = None.
Proof.
  induction l as [|y l IH]; intros H; cbn; [reflexivity|].
  rewrite (H y (or_introl eq_refl)). apply IH. intros z Hz. apply H. right. exact Hz.
Qed.

(** *** Statements that leave the state alone *)

Lemma check_stateless (c : ImageInspectorOptions -> bool) (e : ImageInspectorOptions -> error) :
  stateless (i <- self ;; when (c i) (Return (Some (e i)))).
Proof. intros m. unfold bind, self, when, Return, ret. destruct (c (this m)); reflexivity. Qed.

Lemma search_stateless (s : string) (sv : ImageInspectorOptions -> MultiStringVar)
    (c : ImageInspectorOptions -> bool -> bool) (e : error) :
  stateless (i <- self ;; found <- StringInList_call s (sv i) ;;
             when (c i found) (Return (Some e))).
Proof.
  intros m. unfold bind, self, StringInList_call, when, Return, ret.
  destruct (c (this m) _); reflexivity.
Qed.

Lemma stateless_keeps (s : exec unit) : stateless s -> keeps s.
Proof. intros H m. rewrite (H m). split; reflexivity. Qed.

Lemma run_stateless (rs : list (exec unit)) :
  Forall stateless rs -> stateless (run rs).
Proof.
  induction 1 as [|r rs Hr _ IH]; intros m; [reflexivity|].
  cbn [run fold_right]. fold (run rs). unfold bind.
  specialize (Hr m). destruct (r m) as [[[]|e] m']; cbn [snd] in *; subst.
  - apply IH.
  - reflexivity.
Qed.

Lemma IsNotExist_missing (fs : filesystem) (path : string) :
  IsNotExist (err (fs path)) = missing fs path.
Proof.
  unfold missing, lookup. destruct (fs path) as [fi|e]; simpl; [reflexivity|].
  destruct (e =? ENOENT)%Z; reflexivity.
Qed.

(** *** Memory and slices *)

Lemma map_ext_seq {A : Type} (f g : nat -> A) (a n : nat) :
  (forall b, a <= b < a + n -> f b = g b) -> map f (seq a n) = map g (seq a n).
Proof.
  intros H. apply map_ext_in. intros b Hb. apply in_seq in Hb. apply H. exact Hb.
Qed.

Lemma map_nth_seq (l : list string) (a : nat) :
  map (fun b => nth (b - a) l EmptyString) (seq a (length l)) = l.
Proof.
  revert a. induction l as [|x l IH]; intros a; [reflexivity|].
  cbn [length seq map]. rewrite Nat.sub_diag. cbn [nth]. f_equal.
  rewrite <- (IH (S a)) at 2. apply map_ext_seq. intros b Hb.
  replace (b - a) with (S (b - S a)) by lia. reflexivity.
Qed.

(** The slice [append] returns shows the elements of its argument followed
    by the value appended, whatever the capacity. *)
Lemma append_elems (grow : nat -> nat) (h : memory) (s : MultiStringVar) (x : string) :
  elems (snd (append grow h s x)) (fst (append grow h s x)) = elems h s ++ [x].
Proof.
  unfold append. destruct (slice_len s <? slice_cap s); cbn [fst snd].
  - unfold elems, write. cbn [ptr slice_len cells]. rewrite seq_S, map_app.
    cbn [map]. rewrite Nat.eqb_refl. f_equal. apply map_ext_seq. intros b Hb.
    destruct (Nat.eqb_spec b (ptr s + slice_len s)); [lia | reflexivity].
  - unfold elems at 1, allocate. cbn [ptr slice_len cells].
    assert (Hl : length (elems h s ++ [x]) = S (slice_len s)).
    { unfold elems. rewrite length_app, length_map, length_seq. cbn. lia. }
    rewrite <- Hl at 1. rewrite <- (map_nth_seq (elems h s ++ [x]) (brk h)) at 2.
    apply map_ext_seq. intros b Hb. rewrite Hl in Hb.
    destruct (Nat.leb_spec (brk h) b); [|lia].
    destruct (Nat.ltb_spec b (brk h + (S (slice_len s) + grow (slice_cap s))));
      [reflexivity | lia].
Qed.

(** [append] changes no cell outside those it assigns to. *)
Lemma append_elsewhere (grow : nat -> nat) (h : memory) (s : MultiStringVar)
    (x : string) (a : nat) :
  append_writes grow h s a = false -> cells (snd (append grow h s x)) a = cells h a.
Proof.
  unfold append_writes, append. destruct (slice_len s <? slice_cap s); cbn [snd].
  - intros H. unfold write. cbn [cells]. rewrite H. reflexivity.
  - intros H. unfold allocate. cbn [cells]. rewrite H. reflexivity.
Qed.

Lemma apart_elems (grow : nat -> nat) (h : memory) (s sv : MultiStringVar) (x : string) :
  apart grow h s sv = true -> elems (snd (append grow h s x)) sv = elems h sv.
Proof.
  unfold apart. rewrite forallb_forall. intros H. unfold elems.
  apply map_ext_in. intros a Ha. apply append_elsewhere.
  apply negb_true_iff, H, Ha.
Qed.

(** A slice never sees [append] assign to its own elements when [append]
    works in place. *)
Lemma apart_self (grow : nat -> nat) (h : memory) (s : MultiStringVar) :
  slice_len s < slice_cap s -> apart grow h s s = true.
Proof.
  intros Hc. unfold apart, append_writes. apply forallb_forall. intros a Ha.
  apply in_seq in Ha. destruct (Nat.ltb_spec (slice_len s) (slice_cap s)); [|lia].
  apply negb_true_iff, Nat.eqb_neq. lia.
Qed.

(** A loop whose body leaves the memory alone runs its body on the
    elements the slice shows when the loop starts. *)
Lemma range_from_for_range (body : string -> exec unit) (a n : nat) m :
  (forall x m', heap (snd (body x m')) = heap m') ->
  range_from a n body m = for_range (map (cells (heap m)) (seq a n)) body m.
Proof.
  intros Hb. revert a m. induction n as [|n IH]; intros a m; [reflexivity|].
  cbn [range_from seq map for_range]. unfold bind.
  pose proof (Hb (cells (heap m) a) m) as Hh.
  destruct (body (cells (heap m) a) m) as [[[]|e] m']; [|reflexivity].
  cbn [snd] in Hh. rewrite IH, Hh. reflexivity.
Qed.

Lemma range_for_range (body : string -> exec unit) (s : MultiStringVar) m :
  (forall x m', heap (snd (body x m')) = heap m') ->
  range s body m = for_range (elems (heap m) s) body m.
Proof. apply range_from_for_range. Qed.

(** *** Sequencing *)

Lemma bind_assoc {A B C : Type} (c : exec A) (k : A -> exec B) (h : B -> exec C) m :
  bind (bind c k) h m = bind c (fun a => bind (k a) h) m.
Proof. unfold bind. destruct (c m) as [[a|e] m']; reflexivity. Qed.

Lemma bind_ret {A : Type} (k : unit -> exec A) m : bind (ret tt) k m = k tt m.
Proof. reflexivity. Qed.

Lemma bind_Returned {A B : Type} (c : exec A) (k : A -> exec B) m e :
  fst (c m) = Returned e -> bind c k m = (Returned e, snd (c m)).
Proof. unfold bind. destruct (c m) as [[a|e'] m']; simpl; congruence. Qed.

Lemma bind_Normal {A B : Type} (c : exec A) (k : A -> exec B) m a :
  fst (c m) = Normal a -> bind c k m = k a (snd (c m)).
Proof. unfold bind. destruct (c m) as [[a'|e'] m']; simpl; congruence. Qed.

Lemma bind_ext {A B : Type} (c : exec A) (k k' : A -> exec B) m :
  (forall a m', k a m' = k' a m') -> bind c k m = bind c k' m.
Proof. intros H. unfold bind. destruct (c m) as [[a|e] m']; [apply H | reflexivity]. Qed.

Lemma run_app (rs1 rs2 : list (exec unit)) m :
  run (rs1 ++ rs2) m = (run rs1 ;; run rs2) m.
Proof.
  revert m. induction rs1 as [|r rs1 IH]; intros m; simpl; [reflexivity|].
  rewrite bind_assoc. apply bind_ext. intros _ m'. apply IH.
Qed.

(** A run that executed [return] is not continued by what follows it. *)
Lemma run_stops (rs1 rs2 : list (exec unit)) m e :
  fst (run rs1 m) = Returned e -> run (rs1 ++ rs2) m = run rs1 m.
Proof.
  intros H. rewrite run_app. unfold bind.
  destruct (run rs1 m) as [[a|e'] m']; simpl in H; [discriminate | reflexivity].
Qed.

Section Facts.

Variable fs : filesystem.
Variable ScanOptions : list string.
Variable PullPolicyOptions : list string.
Variable grow : nat -> nat.

Local Abbreviation Validate := (Validate fs ScanOptions PullPolicyOptions grow).
Local Abbreviation rules := (rules fs ScanOptions PullPolicyOptions grow).
Local Abbreviation validation_rules := (validation_rules fs ScanOptions PullPolicyOptions).
Local Abbreviation rule_no := (rule_no fs ScanOptions PullPolicyOptions).
Local Abbreviation outcome := (outcome fs ScanOptions PullPolicyOptions grow).

(** *** Each statement decides the rule of the same number *)

Lemma enforces_stateless (s : exec unit) (r : rule) :
  (forall m, fst (s m) = verdict (r (config_of (heap m) (this m))) /\ snd (s m) = m) ->
  enforces s r.
Proof.
  intros H. split; intros m; destruct (H m) as [Hf Hs]; [exact Hf|].
  rewrite Hs. split; reflexivity.
Qed.

Lemma slice_len_elems (h : memory) (sv : MultiStringVar) :
  length (elems h sv) = slice_len sv.
Proof. unfold elems. rewrite length_map, length_seq. reflexivity. Qed.

Lemma slice_len_zero (h : memory) (sv : MultiStringVar) :
  (slice_len sv =? 0) = (length (elems h sv) =? 0).
Proof. rewrite slice_len_elems. reflexivity. Qed.

Lemma slice_len_pos (h : memory) (sv : MultiStringVar) :
  (0 <? slice_len sv) = negb (length (elems h sv) =? 0).
Proof. rewrite slice_len_elems. destruct (slice_len sv); reflexivity. Qed.

Create HintDb validate.
#[local] Hint Unfold rule1 rule2 rule3 rule4 rule5 rule6 rule7 rule8 rule9
  rule10 rule11 rule12 rule13 rule14 rule15 bind self when Return ret
  forbid StringInList_call : validate.

Ltac pure_rule :=
  apply enforces_stateless; intros m; autounfold with validate;
  rewrite ?len_zero, ?len_pos, ?StringInList_Contains,
    ?(slice_len_pos (heap m)), ?(slice_len_zero (heap m)); cbn.

Ltac decided := cbn; split; reflexivity.

Lemma rule1_enforces : enforces rule1 (rule_no 1).
Proof. pure_rule. destruct (nonempty (URI (this m))); decided. Qed.

Lemma rule2_enforces : enforces rule2 (rule_no 2).
Proof.
  pure_rule.
  destruct (nonempty (Image (this m))), (nonempty (Container (this m))); decided.
Qed.

Lemma rule3_enforces : enforces rule3 (rule_no 3).
Proof.
  pure_rule.
  destruct (nonempty (Image (this m))), (nonempty (Container (this m))); decided.
Qed.

Lemma rule4_enforces : enforces rule4 (rule_no 4).
Proof.
  pure_rule.
  destruct (cmd.ScanContainerChanges (this m)), (nonempty (Container (this m)));
    decided.
Qed.

Lemma rule5_enforces : enforces rule5 (rule_no 5).
Proof.
  pure_rule.
  destruct (length (elems (heap m) (DockerCfg (this m))) =? 0),
    (nonempty (cmd.Username (this m))); decided.
Qed.

Lemma rule6_enforces : enforces rule6 (rule_no 6).
Proof.
  pure_rule.
  destruct (nonempty (cmd.Username (this m))), (nonempty (cmd.PasswordFile (this m)));
    decided.
Qed.

Lemma rule7_enforces : enforces rule7 (rule_no 7).
Proof.
  pure_rule. destruct (nonempty (Serve (this m))), (Chroot (this m)); decided.
Qed.

Lemma rule8_enforces : enforces rule8 (rule_no 8).
Proof.
  pure_rule.
  destruct (nonempty (cmd.ScanResultsDir (this m))),
    (length (elems (heap m) (cmd.ScanTypes (this m))) =? 0); decided.
Qed.

Lemma rule9_enforces : enforces (rule9 fs) (rule_no 9).
Proof.
  assert (H : forall m,
             fst (rule9 fs m) = verdict (rule_no 9 (config_of (heap m) (this m)))
             /\ this (snd (rule9 fs m)) = this m /\ heap (snd (rule9 fs m)) = heap m).
  { intros m. unfold spec.rule_no. cbn [nth Nat.sub spec.validation_rules].
    autounfold with validate. rewrite len_pos.
    unfold exists_not_directory, lookup, Stat. cbn.
    destruct (nonempty (cmd.ScanResultsDir (this m))); [|repeat split]. cbn.
    destruct (fs (cmd.ScanResultsDir (this m))) as [fi|e].
    - destruct (IsDir fi); repeat split.
    - destruct (e =? ENOENT)%Z; repeat split. }
  split; intros m; apply (H m).
Qed.

Lemma rule10_enforces : enforces rule10 (rule_no 10).
Proof.
  pure_rule.
  destruct (nonempty (PostResultTokenFile (this m))),
    (nonempty (PostResultURL (this m))); decided.
Qed.

Lemma rule11_enforces : enforces rule11 (rule_no 11).
Proof.
  pure_rule.
  destruct (OpenScapHTML (this m)),
    (Contains "openscap" (elems (heap m) (cmd.ScanTypes (this m)))); decided.
Qed.

Lemma check_file_step (p : string) m :
  check_file fs p m =
  if nonempty p then
    (if missing fs p then Returned (Some (FileNotFound p)) else Normal tt,
     {| this := this m; heap := heap m; stat_log := stat_log m ++ [p] |})
  else (Normal tt, m).
Proof.
  unfold check_file, when. rewrite len_pos.
  destruct (nonempty p); [|reflexivity].
  unfold bind, Stat. rewrite IsNotExist_missing.
  destruct (missing fs p); reflexivity.
Qed.

Lemma check_file_heap (p : string) m : heap (snd (check_file fs p m)) = heap m.
Proof.
  rewrite check_file_step. destruct (nonempty p); [|reflexivity].
  destruct (missing fs p); reflexivity.
Qed.

(** The loop over the files stops at the first non-empty path reported
    missing, and touches nothing but the log. *)
Lemma files_loop (l : list string) m :
  fst (for_range l (check_file fs) m)
  = verdict (option_map FileNotFound (find (fun p => nonempty p && missing fs p) l))
  /\ this (snd (for_range l (check_file fs) m)) = this m
  /\ heap (snd (for_range l (check_file fs) m)) = heap m.
Proof.
  revert m. induction l as [|p l IH]; intros m; [repeat split|].
  cbn [for_range find]. unfold bind. rewrite check_file_step.
  destruct (nonempty p); cbn [andb].
  - destruct (missing fs p).
    + repeat split.
    + apply (IH {| this := this m; heap := heap m; stat_log := stat_log m ++ [p] |}).
  - apply IH.
Qed.

(** Statement 12: the loop runs over the elements of [DockerCfg] followed
    by the password file; the struct stays, the memory is what [append]
    leaves. *)
Lemma rule12_runs m :
  rule12 fs grow m
  = for_range (elems (heap m) (DockerCfg (this m)) ++ [cmd.PasswordFile (this m)])
      (check_file fs)
      {| this := this m;
         heap := appended grow (heap m) (this m);
         stat_log := stat_log m |}.
Proof.
  unfold rule12, self, go_append, bind, appended.
  pose proof (append_elems grow (heap m) (DockerCfg (this m))
                (cmd.PasswordFile (this m))) as He.
  destruct (append grow (heap m) (DockerCfg (this m)) (cmd.PasswordFile (this m)))
    as [r h']. cbn [fst snd] in *.
  rewrite (range_for_range _ _ _ check_file_heap). cbn [heap]. rewrite He.
  reflexivity.
Qed.

Lemma rule12_decides : decides (rule12 fs grow) (rule_no 12).
Proof.
  intros m. rewrite rule12_runs.
  match goal with
  | |- context [for_range ?l ?b ?m'] => destruct (files_loop l m') as [F _]
  end.
  rewrite F. reflexivity.
Qed.

Lemma rule12_after m :
  this (snd (rule12 fs grow m)) = this m
  /\ heap (snd (rule12 fs grow m)) = appended grow (heap m) (this m).
Proof.
  rewrite rule12_runs.
  match goal with
  | |- context [for_range ?l ?b ?m'] => destruct (files_loop l m') as (_ & F1 & F2)
  end.
  rewrite F1, F2. split; reflexivity.
Qed.

Lemma rule13_enforces : enforces rule13 (rule_no 13).
Proof.
  pure_rule.
  destruct (Contains "clamav" (elems (heap m) (cmd.ScanTypes (this m)))),
    (nonempty (ClamSocket (this m))); decided.
Qed.

(** The loop over the scan types stops at the first one outside the
    domain, and touches nothing. *)
Lemma scan_types_loop (l : list string) m :
  for_range l (fun v =>
      when (negb (util.StringInList v ScanOptions))
        (Return (Some (InvalidScanType v ScanOptions)))) m
  = (verdict (option_map (fun v => InvalidScanType v ScanOptions)
                (find (fun v => negb (Contains v ScanOptions)) l)), m).
Proof.
  induction l as [|v l IH]; [reflexivity|].
  cbn [for_range find]. unfold bind, when.
  rewrite StringInList_Contains.
  destruct (Contains v ScanOptions); cbn; [exact IH | reflexivity].
Qed.

Lemma scan_type_check_heap (v : string) m :
  heap (snd (when (negb (util.StringInList v ScanOptions))
               (Return (Some (InvalidScanType v ScanOptions))) m)) = heap m.
Proof.
  unfold when. destruct (negb (util.StringInList v ScanOptions)); reflexivity.
Qed.

Lemma rule14_enforces : enforces (rule14 ScanOptions) (rule_no 14).
Proof.
  apply enforces_stateless. intros m. unfold rule14, self, bind, spec.rule_no.
  cbn [nth validation_rules Nat.sub spec.ScanTypes config_of].
  rewrite (slice_len_pos (heap m)).
  destruct (elems (heap m) (cmd.ScanTypes (this m))) as [|v l] eqn:E; [decided|].
  change (negb (length (v :: l) =? 0)) with true.
  change (when true ?s m) with (s m). cbv beta.
  rewrite (range_for_range _ _ _ scan_type_check_heap), E, scan_types_loop.
  split; reflexivity.
Qed.

Lemma rule15_enforces : enforces (rule15 PullPolicyOptions) (rule_no 15).
Proof.
  pure_rule. destruct (Contains (cmd.PullPolicy (this m)) PullPolicyOptions); decided.
Qed.

(** *** The whole method against the list of rules *)

Lemma Validate_run m : Validate m = (run rules ;; Return None) m.
Proof.
  unfold cmd.Validate, cmd.rules, run, fold_right. revert m.
  do 15 (intros ?m; cbv beta; rewrite bind_assoc; apply bind_ext; intros _).
  reflexivity.
Qed.

Lemma Validate_split (n : nat) m :
  Validate m = (run (firstn n rules) ;; run (skipn n rules) ;; Return None) m.
Proof.
  rewrite Validate_run.
  rewrite <- (bind_assoc (run (firstn n rules)) (fun _ => run (skipn n rules))
                (fun _ => Return None) m).
  unfold bind at 1 2. rewrite <- run_app, firstn_skipn. reflexivity.
Qed.

Lemma verdict_Normal o : verdict o = Normal tt -> o = None.
Proof. destruct o; simpl; congruence. Qed.

Lemma verdict_Returned o e : verdict o = Returned e -> o <> None /\ e = o.
Proof. destruct o; simpl; intros H; inversion H; split; congruence. Qed.

Lemma Some_inj {A : Type} (a b : A) : Some a = Some b -> a = b.
Proof. congruence. Qed.

Lemma first_violation_app (rs1 rs2 : list rule) c :
  first_violation (rs1 ++ rs2) c
  = match first_violation rs1 c with
    | Some e => Some e
    | None => first_violation rs2 c
    end.
Proof.
  induction rs1 as [|r rs1 IH]; [reflexivity|]. cbn.
  destruct (r c); [reflexivity | exact IH].
Qed.

Lemma first_violation_None (rs : list rule) c :
  first_violation rs c = None <-> forall r, In r rs -> r c = None.
Proof.
  induction rs as [|r rs IH]; cbn.
  - split; [intros _ r [] | reflexivity].
  - destruct (r c) as [e|] eqn:E.
    + split; [discriminate|]. intros H. rewrite <- E. apply H. left. reflexivity.
    + rewrite IH. split.
      * intros H r' [<-|Hin]; [exact E | apply H, Hin].
      * intros H r' Hin. apply H. right. exact Hin.
Qed.

Lemma first_violation_next (rs : list rule) (n : nat) c :
  first_violation (firstn n rs) c = None ->
  first_violation (firstn (S n) rs) c = nth n rs (fun _ => None) c.
Proof.
  revert n. induction rs as [|r rs IH]; intros n.
  - destruct n; reflexivity.
  - destruct n as [|n]; cbn.
    + destruct (r c); reflexivity.
    + destruct (r c) as [e|]; [discriminate|]. apply IH.
Qed.

(** Statements that each enforce a rule, run in sequence, enforce the
    first violation of the rules in that order. *)
Lemma run_enforces (cs : list (exec unit)) (rs : list rule) :
  Forall2 enforces cs rs -> enforces (run cs) (first_violation rs).
Proof.
  induction 1 as [|c r cs rs [Hd Hk] _ [IHd IHk]].
  - split; intros m; [reflexivity | split; reflexivity].
  - assert (H : forall m,
               fst (run (c :: cs) m)
               = verdict (first_violation (r :: rs) (config_of (heap m) (this m)))
               /\ this (snd (run (c :: cs) m)) = this m
               /\ heap (snd (run (c :: cs) m)) = heap m).
    { intros m. cbn [run fold_right first_violation]. fold (run cs). unfold bind.
      pose proof (Hd m) as Hf. destruct (Hk m) as [Ht Hh].
      destruct (c m) as [[[]|e] m']; cbn [fst snd] in *.
      - symmetry in Hf. apply verdict_Normal in Hf. rewrite Hf.
        pose proof (IHd m') as IHf. destruct (IHk m') as [IHt IHh].
        rewrite Ht, Hh in IHf. rewrite IHt, IHh. auto.
      - symmetry in Hf. destruct (r (config_of (heap m) (this m))) as [e'|];
          cbn in Hf; [|discriminate].
        split; [cbn; congruence | auto]. }
    split; intros m; apply (H m).
Qed.

Lemma Forall2_firstn {A B : Type} (R : A -> B -> Prop) (n : nat) l l' :
  Forall2 R l l' -> Forall2 R (firstn n l) (firstn n l').
Proof.
  intros H. revert n. induction H; intros [|n]; cbn; constructor; auto.
Qed.

Lemma first_eleven_enforce :
  Forall2 enforces (firstn 11 rules) (firstn 11 validation_rules).
Proof.
  unfold cmd.rules, spec.validation_rules. cbn [firstn].
  repeat first [apply Forall2_nil | apply Forall2_cons].
  - exact rule1_enforces.
  - exact rule2_enforces.
  - exact rule3_enforces.
  - exact rule4_enforces.
  - exact rule5_enforces.
  - exact rule6_enforces.
  - exact rule7_enforces.
  - exact rule8_enforces.
  - exact rule9_enforces.
  - exact rule10_enforces.
  - exact rule11_enforces.
Qed.

Lemma last_three_enforce :
  Forall2 enforces (skipn 12 rules) (skipn 12 validation_rules).
Proof.
  unfold cmd.rules, spec.validation_rules. cbn [skipn].
  repeat first [apply Forall2_nil | apply Forall2_cons].
  - exact rule13_enforces.
  - exact rule14_enforces.
  - exact rule15_enforces.
Qed.

(** Up to statement 12 the method follows the rules on the configuration it
    was given: the first eleven statements leave the struct and the memory
    as they are. *)
Lemma prefix_enforces (n : nat) m :
  n <= 12 ->
  fst (run (firstn n rules) m)
  = verdict (first_violation (firstn n validation_rules) (config_of (heap m) (this m)))
  /\ this (snd (run (firstn n rules) m)) = this m
  /\ (n <= 11 -> heap (snd (run (firstn n rules) m)) = heap m).
Proof.
  intros Hn. destruct (Nat.le_gt_cases n 11) as [H11|H12].
  - replace (firstn n rules) with (firstn n (firstn 11 rules))
      by (rewrite firstn_firstn, Nat.min_l by exact H11; reflexivity).
    replace (firstn n validation_rules) with (firstn n (firstn 11 validation_rules))
      by (rewrite firstn_firstn, Nat.min_l by exact H11; reflexivity).
    destruct (run_enforces _ _ (Forall2_firstn _ n _ _ first_eleven_enforce))
      as [Hd Hk].
    split; [apply Hd|]. destruct (Hk m) as [Ht Hh]. auto.
  - assert (n = 12) as -> by lia.
    change (firstn 12 rules) with (firstn 11 rules ++ [rule12 fs grow]).
    change (firstn 12 validation_rules)
      with (firstn 11 validation_rules ++ [rule_no 12]).
    rewrite run_app, first_violation_app. unfold bind.
    destruct (run_enforces _ _ first_eleven_enforce) as [Hd Hk].
    pose proof (Hd m) as Hf. destruct (Hk m) as [Ht Hh].
    destruct (run (firstn 11 rules) m) as [[[]|e] m']; cbn [fst snd] in *.
    + symmetry in Hf. apply verdict_Normal in Hf. rewrite Hf.
      cbn [run fold_right]. unfold bind.
      pose proof (rule12_decides m') as H12d. destruct (rule12_after m') as [H12t _].
      rewrite Ht, Hh in H12d.
      destruct (rule12 fs grow m') as [[[]|e] m'']; cbn [fst snd] in *.
      * symmetry in H12d. apply verdict_Normal in H12d.
        unfold ret. cbn [fst snd first_violation]. rewrite H12d.
        split; [reflexivity | split; [congruence | lia]].
      * symmetry in H12d. cbn [first_violation].
        destruct (rule_no 12 (config_of (heap m) (this m))) as [e'|];
          cbn in H12d; [|discriminate].
        split; [cbn; congruence | split; [congruence | lia]].
    + symmetry in Hf.
      destruct (first_violation (firstn 11 validation_rules)
                  (config_of (heap m) (this m))) as [e'|]; cbn in Hf; [|discriminate].
      split; [cbn; congruence | split; [exact Ht | lia]].
Qed.

(** The memory after the first twelve statements have completed normally
    is what [append] leaves. *)
Lemma after_twelve m :
  fst (run (firstn 12 rules) m) = Normal tt ->
  heap (snd (run (firstn 12 rules) m)) = appended grow (heap m) (this m).
Proof.
  change (firstn 12 rules) with (firstn 11 rules ++ [rule12 fs grow]).
  rewrite run_app. unfold bind.
  destruct (prefix_enforces 11 m) as (_ & Ht & Hh); [lia|].
  specialize (Hh (Nat.le_refl 11)).
  destruct (run (firstn 11 rules) m) as [[[]|e] m']; cbn [fst snd] in *;
    [|discriminate].
  cbn [run fold_right]. unfold bind. destruct (rule12_after m') as [_ H12].
  rewrite Ht, Hh in H12.
  destruct (rule12 fs grow m') as [[[]|e] m'']; cbn [fst snd] in *;
    [intros _; exact H12 | discriminate].
Qed.

(** What [Validate] returns, in two phases: the first violation among
    rules 1 to 12 on the configuration given, and failing one, the first
    violation among rules 13 to 15 on the configuration that the struct
    stands for once [append] has run. *)
Lemma outcome_two_phase (h : memory) (i : ImageInspectorOptions) :
  outcome h i
  = Some match first_violation (firstn 12 validation_rules) (config_of h i) with
         | Some e => Some e
         | None =>
             first_violation (skipn 12 validation_rules)
               (config_of (appended grow h i) i)
         end.
Proof.
  unfold cmd.outcome. rewrite (Validate_split 12). unfold bind at 1.
  destruct (prefix_enforces 12 (start h i) (Nat.le_refl 12)) as (Hf & Ht & _).
  pose proof (after_twelve (start h i)) as Ha.
  destruct (run (firstn 12 rules) (start h i)) as [[[]|e] m']; cbn [fst snd] in *.
  - symmetry in Hf. apply verdict_Normal in Hf. cbn [start this heap] in *.
    rewrite Hf. unfold bind.
    destruct (run_enforces _ _ last_three_enforce) as [Hd _].
    pose proof (Hd m') as Hl. rewrite Ht, (Ha eq_refl) in Hl.
    destruct (run (skipn 12 rules) m') as [[[]|e] m'']; cbn [fst] in *.
    + symmetry in Hl. apply verdict_Normal in Hl. rewrite Hl. reflexivity.
    + symmetry in Hl. apply verdict_Returned in Hl as [_ ->]. reflexivity.
  - symmetry in Hf. apply verdict_Returned in Hf as [Hne ->].
    cbn [start this heap] in *.
    destruct (first_violation (firstn 12 validation_rules) (config_of h i));
      [reflexivity | contradiction].
Qed.

(** Rules 13 to 15 read the scan types, the clam socket and the pull
    policy, and nothing else. *)
Lemma last_three_read (c c' : Configuration) (rs : list rule) :
  (exists k, rs = firstn k (skipn 12 validation_rules)) ->
  spec.ScanTypes c' = spec.ScanTypes c ->
  ClamAVSocketPath c' = ClamAVSocketPath c ->
  spec.PullPolicy c' = spec.PullPolicy c ->
  first_violation rs c' = first_violation rs c.
Proof.
  intros [k ->] Hs Hc Hp. unfold spec.validation_rules. cbn [skipn].
  destruct k as [|[|[|k]]]; cbn [firstn]; rewrite ?firstn_nil;
    cbn [first_violation]; rewrite ?Hs, ?Hc, ?Hp; reflexivity.
Qed.

Lemma appended_config (h : memory) (i : ImageInspectorOptions) (rs : list rule) :
  ScanTypes_apart grow h i = true ->
  (exists k, rs = firstn k (skipn 12 validation_rules)) ->
  first_violation rs (config_of (appended grow h i) i)
  = first_violation rs (config_of h i).
Proof.
  intros Ha Hk. apply last_three_read; [exact Hk | | reflexivity | reflexivity].
  cbn [config_of spec.ScanTypes]. apply apart_elems. exact Ha.
Qed.

(** When [append] writes no cell of [ScanTypes], [Validate] returns the
    first violation of the fifteen rules on the configuration given. *)
Lemma outcome_first_violation (h : memory) (i : ImageInspectorOptions) :
  ScanTypes_apart grow h i = true ->
  outcome h i = Some (first_violation validation_rules (config_of h i)).
Proof.
  intros Ha. rewrite outcome_two_phase.
  rewrite (appended_config h i _ Ha) by (exists 3; reflexivity).
  rewrite <- first_violation_app, firstn_skipn. reflexivity.
Qed.

(** Once statement [n + 1] has executed [return], the call is over: it
    is the run of the first [n + 1] statements and of nothing else. *)
Lemma Validate_stops (n : nat) m e :
  fst (run (firstn n rules) m) = Returned e ->
  Validate m = run (firstn n rules) m.
Proof.
  intros Hr. rewrite (Validate_split n). unfold bind.
  destruct (run (firstn n rules) m) as [[a|e'] m'];
    cbn in Hr; [discriminate | reflexivity].
Qed.

Lemma Validate_stops_at (n : nat) h i e :
  n < 12 ->
  passes_upto fs ScanOptions PullPolicyOptions n (config_of h i) ->
  rule_no (S n) (config_of h i) = Some e ->
  Validate (start h i) = run (firstn (S n) rules) (start h i)
  /\ fst (run (firstn (S n) rules) (start h i)) = Returned (Some e).
Proof.
  unfold passes_upto, spec.rule_no. cbn [Nat.sub]. rewrite Nat.sub_0_r.
  intros Hn Hp Hv.
  assert (Hr : fst (run (firstn (S n) rules) (start h i)) = Returned (Some e)).
  { destruct (prefix_enforces (S n) (start h i)) as [Hf _]; [lia|]. rewrite Hf.
    cbn [start this heap]. rewrite (first_violation_next _ _ _ Hp), Hv. reflexivity. }
  split; [|exact Hr]. apply (Validate_stops _ _ _ Hr).
Qed.

Lemma prefix_passes (n : nat) h i :
  n <= 12 ->
  fst (run (firstn n rules) (start h i)) = Normal tt ->
  passes_upto fs ScanOptions PullPolicyOptions n (config_of h i).
Proof.
  intros Hn H. destruct (prefix_enforces n (start h i) Hn) as [Hf _].
  rewrite H in Hf. symmetry in Hf. apply verdict_Normal in Hf. exact Hf.
Qed.

Lemma passes_prefix (n : nat) h i :
  n <= 12 ->
  passes_upto fs ScanOptions PullPolicyOptions n (config_of h i) ->
  fst (run (firstn n rules) (start h i)) = Normal tt.
Proof.
  intros Hn H. destruct (prefix_enforces n (start h i) Hn) as [Hf _].
  rewrite Hf. cbn [start this heap]. unfold passes_upto in H. rewrite H. reflexivity.
Qed.

Lemma first_eight_stateless : stateless (run (firstn 8 rules)).
Proof.
  apply run_stateless. unfold cmd.rules. cbn [firstn].
  repeat first [apply Forall_nil | apply Forall_cons].
  - exact (check_stateless _ (fun _ => MissingConnection)).
  - exact (check_stateless _ (fun _ => ConflictingTarget)).
  - exact (check_stateless _ (fun _ => MissingTarget)).
  - exact (check_stateless _ (fun _ => MissingContainerForDiff)).
  - exact (check_stateless _ (fun _ => ConflictingAuth)).
  - exact (check_stateless _ (fun _ => MissingPasswordFile)).
  - exact (check_stateless _ (fun _ => ChrootRequiresServe)).
  - exact (check_stateless _ (fun _ => ResultsDirWithoutScanType)).
Qed.

(** The configuration passes the first [n] statements and statement
    [n + 1] returns [e]. *)
Lemma fails_at (n : nat) h (i : ImageInspectorOptions) (e : error) :
  n < 12 ->
  fst (run (firstn n rules) (start h i)) = Normal tt ->
  rule_no (S n) (config_of h i) = Some e ->
  outcome h i = Some (Some e).
Proof.
  intros Hn Hp Hv. apply prefix_passes in Hp; [|lia].
  destruct (Validate_stops_at n h i e Hn Hp Hv) as [Hs Hr].
  unfold cmd.outcome. rewrite Hs, Hr. reflexivity.
Qed.

(** *** What the specification states of [Validate] *)

(** C2. With an empty [URI], [Validate] returns the missing-connection
    error, whatever the other fields and the filesystem hold. *)
Theorem empty_URI_MissingConnection (h : memory) (i : ImageInspectorOptions) :
  URI i = "" ->
  outcome h i = Some (Some MissingConnection).
Proof.
  intros H. rewrite outcome_two_phase.
  unfold spec.validation_rules. cbn [firstn first_violation config_of ConnectionURI].
  rewrite H. reflexivity.
Qed.

(** C3. With a non-empty [URI] and both [Image] and [Container] non-empty,
    [Validate] returns the conflicting-target error, also when
    [ScanContainerChanges] is set: the rule precedes the container-diff
    rule. *)
Theorem Image_and_Container_ConflictingTarget (h : memory) (i : ImageInspectorOptions) :
  URI i <> "" -> Image i <> "" -> Container i <> "" ->
  outcome h i = Some (Some ConflictingTarget).
Proof.
  intros HU HI HC. rewrite outcome_two_phase.
  apply nonempty_true in HU, HI, HC.
  unfold spec.validation_rules.
  cbn [firstn first_violation config_of ConnectionURI ImageRef ContainerRef].
  rewrite HU, HI, HC. reflexivity.
Qed.

(** C4. On a configuration that passes rules 1 to 11, the paths of
    [DockerCfg] followed by [PasswordFile] must exist where they are not
    empty: if [fl] is the first of them, in this order, that is not empty
    and that the filesystem reports as not existing, [Validate] returns
    the file-not-found error naming [fl]; if none is, the rule passes. *)
Theorem first_missing_file_FileNotFound (h : memory) (i : ImageInspectorOptions) :
  fst (run (firstn 11 rules) (start h i)) = Normal tt ->
  (forall (before behind : list string) (fl : string) (quote : string -> string),
      elems h (DockerCfg i) ++ [cmd.PasswordFile i] = before ++ fl :: behind ->
      (forall p, In p before -> p = "" \/ fs p <> StatErr ENOENT) ->
      fl <> "" -> fs fl = StatErr ENOENT ->
      outcome h i = Some (Some (FileNotFound fl))
      /\ Error quote (FileNotFound fl) = (fl ++ " does not exist")%string)
  /\ ((forall p, In p (elems h (DockerCfg i) ++ [cmd.PasswordFile i]) ->
         p = "" \/ fs p <> StatErr ENOENT) ->
      fst (run (firstn 12 rules) (start h i)) = Normal tt).
Proof.
  intros Hpass. pose proof (prefix_passes 11 h i ltac:(lia) Hpass) as Hp.
  assert (Hdec : forall l : list string,
             (forall p, In p l -> p = "" \/ fs p <> StatErr ENOENT) ->
             forall p, In p l -> nonempty p && missing fs p = false).
  { intros l H p Hin. destruct (nonempty p) eqn:En; [|reflexivity].
    destruct (missing fs p) eqn:Em; [|reflexivity].
    apply nonempty_true in En. apply missing_ENOENT in Em.
    destruct (H p Hin); contradiction. }
  split.
  - intros before behind fl quote Hfiles Hbefore Hne Hfl. split; [|reflexivity].
    apply (fails_at 11 h i _ ltac:(lia) Hpass).
    unfold spec.rule_no, spec.validation_rules, checked_files.
    cbn [nth Nat.sub config_of RegistryConfigFiles spec.PasswordFile].
    rewrite Hfiles, (find_first _ before behind fl); [reflexivity | |].
    + apply Hdec, Hbefore.
    + apply nonempty_true in Hne. apply missing_ENOENT in Hfl.
      rewrite Hne, Hfl. reflexivity.
  - intros Hall. apply passes_prefix; [lia|]. unfold passes_upto.
    rewrite (first_violation_next _ _ _ Hp).
    unfold spec.validation_rules, checked_files.
    cbn [nth config_of RegistryConfigFiles spec.PasswordFile].
    rewrite find_none_iff; [reflexivity | apply Hdec, Hall].
Qed.

(** C5. On a configuration that passes rules 1 to 8 and names a results
    directory: if [os.Stat] finds an entry at that path and it is not a
    directory, [Validate] returns the not-a-directory error for the path;
    if no entry exists at the path, the rule passes and the call goes on
    with the later rules, from the state the lookup left. *)
Theorem results_dir_must_be_directory (h : memory) (i : ImageInspectorOptions) :
  fst (run (firstn 8 rules) (start h i)) = Normal tt ->
  cmd.ScanResultsDir i <> "" ->
  (forall fi, fs (cmd.ScanResultsDir i) = StatOk fi -> IsDir fi = false ->
      outcome h i
      = Some (Some (ResultsDirNotADirectory (cmd.ScanResultsDir i))))
  /\ (fs (cmd.ScanResultsDir i) = StatErr ENOENT ->
      let looked_up :=
        {| this := i; heap := h; stat_log := [cmd.ScanResultsDir i] |} in
      rule9 fs (start h i) = (Normal tt, looked_up)
      /\ Validate (start h i) = (run (skipn 9 rules) ;; Return None) looked_up).
Proof.
  intros Hpass Hdir. apply nonempty_true in Hdir. split.
  - intros fi Hfi Hnd. apply (fails_at 8 h i _ ltac:(lia) Hpass).
    unfold spec.rule_no, spec.validation_rules, exists_not_directory, lookup.
    cbn [nth Nat.sub config_of spec.ScanResultsDir].
    rewrite Hdir, Hfi, Hnd. reflexivity.
  - intros Habsent looked_up.
    assert (H9 : rule9 fs (start h i) = (Normal tt, looked_up)).
    { unfold rule9, bind, self, when, Stat. cbn [start this heap stat_log].
      rewrite len_pos, Hdir, Habsent. reflexivity. }
    split; [exact H9|].
    assert (H89 : run (firstn 9 rules) (start h i) = (Normal tt, looked_up)).
    { change (firstn 9 rules) with (firstn 8 rules ++ [rule9 fs]).
      rewrite run_app. pose proof (first_eight_stateless (start h i)) as Hst.
      rewrite (bind_Normal _ _ _ tt Hpass), Hst.
      cbn [run fold_right]. unfold bind. rewrite H9. reflexivity. }
    rewrite (Validate_split 9).
    rewrite (bind_Normal _ _ _ tt) by (rewrite H89; reflexivity).
    rewrite H89. reflexivity.
Qed.

(** Which rule a failure comes from. *)
Ltac scan_rules H :=
  unfold spec.validation_rules, forbid in H;
  cbn [firstn skipn first_violation] in H;
  repeat match type of H with
         | context [option_map ?f ?o] =>
             let E := fresh "E" in destruct o eqn:E; cbn [option_map] in H
         | context [if ?b then _ else _] =>
             let E := fresh "E" in destruct b eqn:E
         end;
  try discriminate H.

Lemma ResultsDirNotADirectory_origin c c' d :
  match first_violation (firstn 12 validation_rules) c with
  | Some e => Some e
  | None => first_violation (skipn 12 validation_rules) c'
  end = Some (ResultsDirNotADirectory d) ->
  d = spec.ScanResultsDir c /\ exists_not_directory fs d = true.
Proof.
  intros H. scan_rules H; inversion H; subst d;
  match goal with
  | E : _ && exists_not_directory _ _ = true |- _ =>
      apply andb_prop in E as [_ E]; split; [reflexivity | exact E]
  end.
Qed.

Lemma FileNotFound_origin c c' p :
  match first_violation (firstn 12 validation_rules) c with
  | Some e => Some e
  | None => first_violation (skipn 12 validation_rules) c'
  end = Some (FileNotFound p) ->
  In p (checked_files c) /\ nonempty p = true /\ missing fs p = true.
Proof.
  intros H. scan_rules H; inversion H; subst p;
  match goal with
  | E : find _ (checked_files c) = Some _ |- _ =>
      apply find_some in E as [Hin Hp]; apply andb_prop in Hp as [Hn Hm]; auto
  end.
Qed.

(** C10. The filesystem rules fail on established facts only. [Validate]
    returns the not-a-directory error only when [os.Stat] succeeded on the
    results directory and described something that is not a directory;
    any error of [os.Stat] lets that rule pass. It returns the
    file-not-found error only for a non-empty path among the files whose
    lookup reported that the path does not exist; a lookup that fails for
    another reason, such as a denied permission, lets the path pass. *)
Theorem stat_failures_other_than_absence_pass (h : memory) (i : ImageInspectorOptions) :
  (forall d,
      outcome h i = Some (Some (ResultsDirNotADirectory d)) ->
      d = cmd.ScanResultsDir i
      /\ exists fi, fs d = StatOk fi /\ IsDir fi = false)
  /\ (forall p,
        outcome h i = Some (Some (FileNotFound p)) ->
        In p (elems h (DockerCfg i) ++ [cmd.PasswordFile i])
        /\ p <> "" /\ fs p = StatErr ENOENT)
  /\ (forall e stats,
        fs (cmd.ScanResultsDir i) = StatErr e ->
        fst (rule9 fs {| this := i; heap := h; stat_log := stats |}) = Normal tt)
  /\ (forall p e m,
        fs p = StatErr e -> e <> ENOENT ->
        fst (check_file fs p m) = Normal tt).
Proof.
  split; [|split; [|split]].
  - intros d H. rewrite outcome_two_phase in H. apply Some_inj in H.
    apply ResultsDirNotADirectory_origin in H as [-> Hd]. split; [reflexivity|].
    unfold exists_not_directory, lookup in Hd. cbn [config_of spec.ScanResultsDir] in *.
    destruct (fs (cmd.ScanResultsDir i)) as [fi|e].
    + exists fi. split; [reflexivity|]. destruct (IsDir fi); [discriminate | reflexivity].
    + destruct (e =? ENOENT)%Z; discriminate.
  - intros p H. rewrite outcome_two_phase in H. apply Some_inj in H.
    apply FileNotFound_origin in H as (Hin & Hn & Hm).
    split; [exact Hin|]. split; [apply nonempty_true, Hn | apply missing_ENOENT, Hm].
  - intros e stats He. unfold rule9, bind, self, when, Stat. cbn [this].
    destruct (0 <? len (cmd.ScanResultsDir i)); [|reflexivity].
    rewrite He. reflexivity.
  - intros p e m Hp Hne. rewrite check_file_step.
    destruct (nonempty p); [|reflexivity].
    assert (Hm : missing fs p = false).
    { destruct (missing fs p) eqn:Em; [|reflexivity].
      apply missing_ENOENT in Em. congruence. }
    rewrite Hm. reflexivity.
Qed.

End Facts.

(** C6. On the clamav scenario [Validate] returns the missing-clam-socket
    error, whatever the filesystem and the domains are: with empty
    domains, where the scan-type rule and the pull-policy rule are violated
    as well, the clam-socket rule still decides. *)
Theorem clamav_scenario_MissingClamSocket
    (fs : filesystem) (ScanOptions PullPolicyOptions : list string)
    (grow : nat -> nat) (spare : list string) :
  outcome fs ScanOptions PullPolicyOptions grow
    (examples.clamav_memory spare) (examples.clamav_scenario spare)
  = Some (Some MissingClamSocket)
  /\ outcome fs [] [] grow (examples.clamav_memory spare)
       (examples.clamav_scenario spare)
     = Some (Some MissingClamSocket)
  /\ rule_no fs [] [] 14
       (config_of (examples.clamav_memory spare) (examples.clamav_scenario spare))
     = Some (InvalidScanType "clamav" [])
  /\ rule_no fs [] [] 15
       (config_of (examples.clamav_memory spare) (examples.clamav_scenario spare))
     = Some (InvalidPullPolicy "" []).
Proof.
  rewrite !outcome_two_phase. repeat split; reflexivity.
Qed.

(** C9. The options [NewDefaultImageInspectorOptions] returns set the
    connection, the feed location and the pull policy, hold two empty
    slices and name neither an image nor a container; unchanged, they do
    not validate: [Validate] returns the missing-target error, whose
    message asks for an image or a container. *)
Theorem default_options_MissingTarget
    (fs : filesystem) (ScanOptions PullPolicyOptions : list string)
    (grow : nat -> nat) (CVEUrl PullIfNotPresent : string)
    (quote : string -> string) (h : memory) :
  let d := NewDefaultImageInspectorOptions CVEUrl PullIfNotPresent in
  outcome fs ScanOptions PullPolicyOptions grow h d = Some (Some MissingTarget)
  /\ Error quote MissingTarget
     = "docker image or container must be specified to inspect"
  /\ URI d = DefaultDockerSocketLocation
  /\ CVEUrlPath d = CVEUrl
  /\ cmd.PullPolicy d = PullIfNotPresent
  /\ elems h (DockerCfg d) = [] /\ elems h (cmd.ScanTypes d) = []
  /\ Image d = "" /\ Container d = "".
Proof.
  repeat split; reflexivity.
Qed.

(** *** The theorems at concrete inputs *)

Section Runs.
Import examples.

Local Abbreviation outcome := (outcome disk scan_options pull_policy_options doubling).
Local Abbreviation Validate := (Validate disk scan_options pull_policy_options doubling).
Local Abbreviation rules := (rules disk scan_options pull_policy_options doubling).
Local Abbreviation after := (after disk scan_options pull_policy_options doubling).

(** C1. Where the two slices of the struct share one array, [Validate]
    does not return the first violated rule. With [DockerCfg] on the first
    cell of an array and [ScanTypes] on the second, the configuration
    given violates none of the fifteen rules; statement 12 appends the
    password file in place, over the scan type, and statement 14 then
    returns the invalid-scan-type error for a value the caller never gave
    as a scan type. *)
Theorem shared_array_returns_an_error_without_violation :
  spec.ScanTypes (config_of one_array on_one_array) = ["openscap"]
  /\ (forall r,
        In r (validation_rules disk scan_options pull_policy_options) ->
        r (config_of one_array on_one_array) = None)
  /\ first_violation (validation_rules disk scan_options pull_policy_options)
       (config_of one_array on_one_array) = None
  /\ outcome one_array on_one_array
     = Some (Some (InvalidScanType "/root/.dockercfg" scan_options))
  /\ outcome one_array on_one_array <> Some None.
Proof.
  split; [reflexivity|]. split; [apply first_violation_None; reflexivity|].
  split; [reflexivity|]. split; [reflexivity | discriminate].
Qed.

(** C8. Where the two slices of the struct share one array, [Validate]
    changes what a field shows and is not a function of the configuration.
    The structs [on_one_array] and [on_two_arrays] stand for the same
    configuration in the same memory, under the same filesystem; the call
    returns an error on the first and [nil] on the second, and after the
    call on the first its field [ScanTypes] shows the password file where
    it showed the scan type. *)
Theorem shared_array_is_overwritten :
  config_of one_array on_one_array = config_of one_array on_two_arrays
  /\ outcome one_array on_one_array
     = Some (Some (InvalidScanType "/root/.dockercfg" scan_options))
  /\ outcome one_array on_two_arrays = Some None
  /\ elems one_array (cmd.ScanTypes on_one_array) = ["openscap"]
  /\ elems (after one_array on_one_array) (cmd.ScanTypes on_one_array)
     = ["/root/.dockercfg"]
  /\ config_of (after one_array on_one_array) on_one_array
     <> config_of one_array on_one_array.
Proof.
  repeat split; try reflexivity. discriminate.
Qed.

(** Without spare capacity in [DockerCfg] the same field values validate,
    and the array is left as it was. *)
Example two_arrays_are_left_alone :
  outcome one_array on_two_arrays = Some None
  /\ elems (after one_array on_two_arrays) (cmd.ScanTypes on_two_arrays) = ["openscap"]
  /\ elems (after one_array on_two_arrays) (DockerCfg on_two_arrays)
     = ["/root/.dockercfg"].
Proof. repeat split; reflexivity. Qed.

Lemma zero_value_MissingConnection :
  URI zero = "" /\ outcome (memory_of []) zero = Some (Some MissingConnection).
Proof.
  split; [reflexivity|].
  apply empty_URI_MissingConnection. reflexivity.
Defined.

Lemma image_and_container_scenario :
  URI both_targets <> "" /\ Image both_targets <> "" /\ Container both_targets <> ""
  /\ cmd.ScanContainerChanges both_targets = true
  /\ outcome (built [] []) both_targets = Some (Some ConflictingTarget).
Proof.
  split; [discriminate|]. split; [discriminate|].
  split; [discriminate|]. split; [reflexivity|].
  apply Image_and_Container_ConflictingTarget; discriminate.
Defined.

Lemma missing_files_names_the_first :
  fst (run (firstn 11 rules) (start (built registry_files []) missing_files))
  = Normal tt
  /\ outcome (built registry_files []) missing_files
     = Some (Some (FileNotFound "/missing/a"))
  /\ Error (fun s => s) (FileNotFound "/missing/a") = "/missing/a does not exist".
Proof.
  split; [reflexivity|].
  apply (proj1 (first_missing_file_FileNotFound disk scan_options
                  pull_policy_options doubling (built registry_files [])
                  missing_files eq_refl)
           ["/root/.dockercfg"; ""] ["/missing/pw"] "/missing/a" (fun s => s)).
  - reflexivity.
  - intros p [<-|[<-|[]]]; [right; discriminate | left; reflexivity].
  - discriminate.
  - reflexivity.
Defined.

Example missing_files_lookups :
  stat_calls disk scan_options pull_policy_options doubling
    (built registry_files []) missing_files
  = ["/root/.dockercfg"; "/missing/a"].
Proof. reflexivity. Qed.

Lemma results_in_a_file_scenario :
  fst (run (firstn 8 rules) (start (built [] ["openscap"]) results_in_a_file))
  = Normal tt
  /\ cmd.ScanResultsDir results_in_a_file <> ""
  /\ disk "/tmp/existing-file-not-dir" = StatOk a_regular_file
  /\ IsDir a_regular_file = false
  /\ outcome (built [] ["openscap"]) results_in_a_file
     = Some (Some (ResultsDirNotADirectory "/tmp/existing-file-not-dir")).
Proof.
  split; [reflexivity|]. split; [discriminate|].
  split; [reflexivity|]. split; [reflexivity|].
  apply (proj1 (results_dir_must_be_directory disk scan_options
                  pull_policy_options doubling (built [] ["openscap"])
                  results_in_a_file eq_refl ltac:(discriminate))
           a_regular_file); reflexivity.
Defined.

(** A results directory that does not exist yet passes. *)
Example results_dir_absent :
  outcome (built [] ["openscap"])
    (options "busybox" "" false [] "" ["openscap"] "/var/new-results" "always")
  = Some None.
Proof. reflexivity. Qed.

(** On a struct whose scan types sit apart, the later faults of
    [many_faults] are real, and its files are never looked up. *)
Example many_faults_later_rules :
  outcome (built [] ["bogus"]) many_faults
  = Some (Some (ResultsDirNotADirectory "/tmp/existing-file-not-dir"))
  /\ rule_no disk scan_options pull_policy_options 12
       (config_of (built [] ["bogus"]) many_faults)
     = Some (FileNotFound "/no/such/password")
  /\ rule_no disk scan_options pull_policy_options 14
       (config_of (built [] ["bogus"]) many_faults)
     = Some (InvalidScanType "bogus" scan_options)
  /\ rule_no disk scan_options pull_policy_options 15
       (config_of (built [] ["bogus"]) many_faults)
     = Some (InvalidPullPolicy "sometimes" pull_policy_options)
  /\ stat_calls disk scan_options pull_policy_options doubling
       (built [] ["bogus"]) many_faults
     = ["/tmp/existing-file-not-dir"].
Proof. repeat split; reflexivity. Qed.

(** What the call writes when [DockerCfg] has spare capacity: [append]
    puts the password file in the cell behind the last element. *)
Example Validate_writes_a_spare_cell :
  map (cells spare_cells) [0; 1; 2] = ["/root/.dockercfg"; "old"; "cells"]
  /\ map (cells (after spare_cells with_spare_capacity)) [0; 1; 2]
     = ["/root/.dockercfg"; "/root/.dockercfg"; "cells"]
  /\ outcome spare_cells with_spare_capacity = Some None.
Proof. repeat split; reflexivity. Qed.

Lemma locked_paths_pass :
  disk "/locked/secret" = StatErr EACCES
  /\ EACCES <> ENOENT
  /\ fst (rule9 disk {| this := locked_paths;
                        heap := built ["/locked/secret"] ["openscap"];
                        stat_log := [] |}) = Normal tt
  /\ fst (check_file disk "/locked/secret"
            (start (built ["/locked/secret"] ["openscap"]) locked_paths))
     = Normal tt.
Proof.
  split; [reflexivity|]. split; [discriminate|].
  destruct (stat_failures_other_than_absence_pass disk scan_options
              pull_policy_options doubling
              (built ["/locked/secret"] ["openscap"]) locked_paths)
    as (_ & _ & H9 & H12).
  split.
  - apply (H9 EACCES []). reflexivity.
  - apply (H12 "/locked/secret" EACCES); [reflexivity | discriminate].
Defined.

Example locked_paths_validate :
  outcome (built ["/locked/secret"] ["openscap"]) locked_paths = Some None
  /\ stat_calls disk scan_options pull_policy_options doubling
       (built ["/locked/secret"] ["openscap"]) locked_paths
     = ["/locked/secret"; "/locked/secret"; "/locked/secret"].
Proof. split; reflexivity. Qed.

End Runs.

End cmd_facts.

(* ===================================================================== *)
(** ** Laws of package util *)
(* ===================================================================== *)
Module util_laws.
Import util util_facts.

(** X1. [StringInList s l] holds exactly when [s] is an element of [l]; it
    fails on the empty list, and on a concatenation it is the disjunction
    of the two searches. *)
Theorem StringInList_membership (s : string) (l1 l2 : list string) :
  (StringInList s l1 = true <-> In s l1)
  /\ (StringInList s l1 = true <-> exists before behind, l1 = before ++ s :: behind)
  /\ StringInList s [] = false
  /\ StringInList s (l1 ++ l2) = StringInList s l1 || StringInList s l2.
Proof.
  split; [apply StringInList_In|]. split; [|split].
  - rewrite StringInList_In. split.
    + apply in_split.
    + intros (before & behind & ->). apply in_elt.
  - reflexivity.
  - apply StringInList_app.
Qed.

(** X2. [StrOrDefault] gives the first non-empty string of its arguments:
    it keeps a non-empty [s], falls back to [d] otherwise, is empty only
    when both are, and chained defaults associate. *)
Theorem StrOrDefault_first_nonempty (s d d' : string) :
  (s <> "" -> StrOrDefault s d = s)
  /\ StrOrDefault "" d = d
  /\ (StrOrDefault s d = "" <-> s = "" /\ d = "")
  /\ StrOrDefault (StrOrDefault s d) d' = StrOrDefault s (StrOrDefault d d').
Proof.
  unfold StrOrDefault. destruct s as [|c s]; cbn.
  - split; [tauto|]. split; [reflexivity|]. split; [tauto | reflexivity].
  - split; [reflexivity|]. split; [reflexivity|]. split; [|reflexivity].
    split; [discriminate | intros [H _]; discriminate].
Qed.

(** X3. [Min x y] is the greatest lower bound of [x] and [y], and is one
    of them. *)
Theorem Min_greatest_lower_bound (x y : Z) :
  (Min x y <= x)%Z /\ (Min x y <= y)%Z
  /\ (Min x y = x \/ Min x y = y)
  /\ (forall z, (z <= x)%Z -> (z <= y)%Z -> (z <= Min x y)%Z)
  /\ Min x y = Z.min x y.
Proof.
  unfold Min. destruct (Z.ltb_spec x y); repeat split; try lia; auto.
Qed.

(** X4. [Min] is commutative, associative and idempotent. *)
Theorem Min_semilattice (x y z : Z) :
  Min x y = Min y x
  /\ Min (Min x y) z = Min x (Min y z)
  /\ Min x x = x.
Proof.
  unfold Min.
  destruct (Z.ltb_spec x y), (Z.ltb_spec y x), (Z.ltb_spec y z), (Z.ltb_spec x z),
    (Z.ltb_spec x x); repeat split; try lia;
    repeat match goal with
           | |- context [(?a <? ?b)%Z] => destruct (Z.ltb_spec a b)
           end; lia.
Qed.

Lemma Unique_length_le (a : list string) : length (Unique a) <= length a.
Proof.
  induction a as [|v a IH] using rev_ind; [apply Nat.le_refl|].
  rewrite Unique_snoc, length_app. unfold Unique_step.
  destruct (StringInList v (Unique a)); cbn; [|rewrite length_app; cbn]; lia.
Qed.

(** X5. [Unique] never lengthens its input, and it returns its input
    unchanged exactly when the input has no repeated value. *)
Theorem Unique_shrinks_or_keeps (a : list string) :
  length (Unique a) <= length a
  /\ (Unique a = a <-> NoDup a)
  /\ (length (Unique a) = length a <-> NoDup a).
Proof.
  split; [apply Unique_length_le|]. split.
  - split; [intros <-; apply Unique_NoDup | apply Unique_fixes_NoDup].
  - split.
    + intros H. apply NoDup_incl_NoDup with (l := Unique a).
      * apply Unique_NoDup.
      * lia.
      * intros x Hx. apply Unique_In. exact Hx.
    + intros H. rewrite (Unique_fixes_NoDup _ H). reflexivity.
Qed.

(** X6. De-duplicating a concatenation: the de-duplicated first part,
    followed by the de-duplicated second part without the values the first
    part has. *)
Theorem Unique_app (a b : list string) :
  Unique (a ++ b)
  = Unique a ++ filter (fun v => negb (StringInList v a)) (Unique b).
Proof.
  induction b as [|v b IH] using rev_ind.
  - rewrite app_nil_r. cbn. rewrite app_nil_r. reflexivity.
  - rewrite app_assoc, !Unique_snoc, IH. unfold Unique_step.
    rewrite <- IH, !Unique_mem, StringInList_app.
    destruct (StringInList v b) eqn:Eb.
    + rewrite orb_true_r. cbn. exact IH.
    + rewrite orb_false_r. cbn. rewrite filter_app. cbn.
      destruct (StringInList v a); cbn.
      * rewrite app_nil_r. exact IH.
      * rewrite IH, app_assoc. reflexivity.
Qed.

Lemma find_snoc {A : Type} (P : A -> bool) (l : list A) (v : A) :
  find P (l ++ [v])
  = match find P l with
    | Some x => Some x
    | None => if P v then Some v else None
    end.
Proof.
  induction l as [|x l IH]; cbn; [reflexivity|].
  destruct (P x); [reflexivity | exact IH].
Qed.

Lemma Unique_find (P : string -> bool) (a : list string) :
  find P (Unique a) = find P a.
Proof.
  induction a as [|v a IH] using rev_ind; [reflexivity|].
  rewrite Unique_snoc, find_snoc. unfold Unique_step.
  destruct (StringInList v (Unique a)) eqn:E; cbn.
  - rewrite IH. destruct (find P a) eqn:F; [reflexivity|].
    rewrite Unique_mem in E. apply StringInList_In in E.
    rewrite (find_none _ _ F v E). reflexivity.
  - rewrite find_snoc, IH. reflexivity.
Qed.

(** X7. Searching a de-duplicated list finds what searching the list
    itself finds: the first value with a given property is the same, and
    so is whether some value, or every value, has it. *)
Theorem Unique_preserves_searches (P : string -> bool) (a : list string) :
  find P (Unique a) = find P a
  /\ existsb P (Unique a) = existsb P a
  /\ forallb P (Unique a) = forallb P a.
Proof.
  split; [apply Unique_find|]. split.
  - apply eq_true_iff_eq. rewrite !existsb_exists.
    split; intros (x & Hx & Hp); exists x; split; try exact Hp.
    + apply Unique_In. exact Hx.
    + apply Unique_In. exact Hx.
  - apply eq_true_iff_eq. rewrite !forallb_forall.
    split; intros H x Hx; apply H; apply Unique_In; exact Hx.
Qed.

End util_laws.

(* ===================================================================== *)
(** ** Laws of package cmd *)
(* ===================================================================== *)
Module cmd_laws.
Import os cmd spec refinement caller cmd_facts.

#[local] Arguments Contains : simpl never.
#[local] Arguments nonempty : simpl never.
#[local] Arguments missing : simpl never.
#[local] Arguments exists_not_directory : simpl never.
#[local] Arguments util.Unique : simpl never.
#[local] Arguments find : simpl never.

(** *** Flags given several times *)

Lemma Set_all_spec (grow : nat -> nat) (values : list string)
    (st : MultiStringVar * memory) :
  elems (snd (Set_all grow st values)) (fst (Set_all grow st values))
  = elems (snd st) (fst st) ++ values
  /\ slice_len (fst (Set_all grow st values)) = slice_len (fst st) + length values
  /\ (slice_len (fst st) <= slice_cap (fst st) ->
      slice_len (fst (Set_all grow st values))
      <= slice_cap (fst (Set_all grow st values))).
Proof.
  unfold Set_all. revert st. induction values as [|v values IH]; intros st; cbn.
  - rewrite app_nil_r, Nat.add_0_r. auto.
  - destruct (IH (Set_ grow st v)) as (IH1 & IH2 & IH3).
    rewrite IH1, IH2. unfold Set_ at 1 2 3. rewrite append_elems.
    rewrite <- app_assoc. split; [reflexivity|]. unfold Set_, append in *.
    destruct (Nat.ltb_spec (slice_len (fst st)) (slice_cap (fst st)));
      cbn [fst snd slice_len slice_cap] in *; split; try lia; intros; apply IH3; lia.
Qed.

(** X8. Calls of [Set] accumulate: after one call per value the slice
    shows the elements it had followed by the values, in the order given,
    whatever capacity it had, whatever else shares its array and however
    the runtime grows it; from the empty slice, [String] then prints
    exactly those values. *)
Theorem Set_accumulates (grow : nat -> nat) (h : memory) (sv : MultiStringVar)
    (values : list string) :
  let (sv', h') := Set_all grow (sv, h) values in
  elems h' sv' = elems h sv ++ values
  /\ slice_len sv' = slice_len sv + length values
  /\ (slice_len sv <= slice_cap sv -> slice_len sv' <= slice_cap sv')
  /\ (let (sv0, h0) := Set_all grow (empty_slice, h) values in
      String_ h0 sv0 = ("[" ++ String.concat " " values ++ "]")%string).
Proof.
  destruct (Set_all_spec grow values (sv, h)) as (H1 & H2 & H3).
  destruct (Set_all_spec grow values (empty_slice, h)) as (H0 & _).
  destruct (Set_all grow (sv, h) values) as [sv' h'].
  destruct (Set_all grow (empty_slice, h) values) as [sv0 h0].
  cbn [fst snd] in *. repeat split; try assumption.
  unfold String_, fmt.v_strings. rewrite H0. reflexivity.
Qed.

Section Laws.

Variable fs : filesystem.
Variable ScanOptions : list string.
Variable PullPolicyOptions : list string.
Variable grow : nat -> nat.

Local Abbreviation outcome := (outcome fs ScanOptions PullPolicyOptions grow).
Local Abbreviation Validate := (Validate fs ScanOptions PullPolicyOptions grow).
Local Abbreviation rules := (rules fs ScanOptions PullPolicyOptions grow).
Local Abbreviation validation_rules := (validation_rules fs ScanOptions PullPolicyOptions).
Local Abbreviation rule_no := (rule_no fs ScanOptions PullPolicyOptions).
Local Abbreviation after := (after fs ScanOptions PullPolicyOptions grow).
Local Abbreviation stat_calls := (stat_calls fs ScanOptions PullPolicyOptions grow).

(** *** Statements 13 to 15 when [append] spares the scan types *)

Lemma firstn_plus {A : Type} (a b : nat) (l : list A) :
  firstn (a + b) l = firstn a l ++ firstn b (skipn a l).
Proof.
  revert l. induction a as [|a IH]; intros l; [reflexivity|].
  destruct l as [|x l]; cbn.
  - rewrite firstn_nil. reflexivity.
  - rewrite IH. reflexivity.
Qed.

Lemma prefix_enforces_apart (n : nat) h i :
  ScanTypes_apart grow h i = true ->
  fst (run (firstn n rules) (start h i))
  = verdict (first_violation (firstn n validation_rules) (config_of h i))
  /\ this (snd (run (firstn n rules) (start h i))) = i.
Proof.
  intros Ha. destruct (Nat.le_gt_cases n 12) as [Hle|Hgt].
  - destruct (prefix_enforces fs ScanOptions PullPolicyOptions grow n (start h i) Hle)
      as (Hf & Ht & _).
    split; [exact Hf | exact Ht].
  - replace n with (12 + (n - 12)) by lia. rewrite !firstn_plus.
    rewrite run_app, first_violation_app. unfold bind.
    destruct (prefix_enforces fs ScanOptions PullPolicyOptions grow 12 (start h i)
                (Nat.le_refl 12)) as (Hf & Ht & _).
    pose proof (after_twelve fs ScanOptions PullPolicyOptions grow (start h i)) as H12.
    destruct (run (firstn 12 rules) (start h i)) as [[[]|e] m'];
      cbn [fst snd start this heap] in *.
    + symmetry in Hf. apply verdict_Normal in Hf. rewrite Hf.
      destruct (run_enforces _ _
                  (Forall2_firstn _ (n - 12) _ _
                     (last_three_enforce fs ScanOptions PullPolicyOptions grow)))
        as [Hd Hk].
      pose proof (Hd m') as Hl. destruct (Hk m') as [Hkt _].
      rewrite Ht, (H12 eq_refl) in Hl.
      rewrite (appended_config fs ScanOptions PullPolicyOptions grow h i _ Ha) in Hl
        by (exists (n - 12); reflexivity).
      split; [exact Hl | congruence].
    + symmetry in Hf.
      destruct (first_violation (firstn 12 validation_rules) (config_of h i))
        as [e'|]; cbn in Hf; [|discriminate].
      split; [cbn; congruence | exact Ht].
Qed.

(** With the scan types spared, a struct that passes the first [n]
    statements and violates rule [n + 1] gets the failure of that rule. *)
Lemma fails_at_apart (n : nat) h (i : ImageInspectorOptions) (e : error) :
  ScanTypes_apart grow h i = true ->
  fst (run (firstn n rules) (start h i)) = Normal tt ->
  rule_no (S n) (config_of h i) = Some e ->
  outcome h i = Some (Some e)
  /\ Validate (start h i) = run (firstn (S n) rules) (start h i).
Proof.
  intros Ha Hp Hv.
  destruct (prefix_enforces_apart n h i Ha) as [Hn _]. rewrite Hp in Hn.
  symmetry in Hn. apply verdict_Normal in Hn.
  destruct (prefix_enforces_apart (S n) h i Ha) as [Hs _].
  rewrite (first_violation_next _ _ _ Hn) in Hs.
  unfold spec.rule_no in Hv. cbn [Nat.sub] in Hv. rewrite Nat.sub_0_r in Hv.
  rewrite Hv in Hs. cbn [verdict] in Hs.
  pose proof (Validate_stops fs ScanOptions PullPolicyOptions grow _ _ _ Hs) as Hv'.
  split; [|exact Hv']. unfold cmd.outcome. rewrite Hv', Hs. reflexivity.
Qed.

(** The memory after the call is the one given, or the one [append]
    leaves. *)
Lemma after_cases h i : after h i = h \/ after h i = appended grow h i.
Proof.
  unfold cmd.after. rewrite (Validate_split fs ScanOptions PullPolicyOptions grow 12).
  unfold bind, Return.
  pose proof (after_twelve fs ScanOptions PullPolicyOptions grow (start h i)) as H12.
  assert (Hearly : fst (run (firstn 12 rules) (start h i)) <> Normal tt ->
            heap (snd (run (firstn 12 rules) (start h i))) = h
            \/ heap (snd (run (firstn 12 rules) (start h i))) = appended grow h i).
  { change (firstn 12 rules) with (firstn 11 rules ++ [rule12 fs grow]).
    rewrite run_app. unfold bind.
    destruct (prefix_enforces fs ScanOptions PullPolicyOptions grow 11 (start h i))
      as (_ & Ht & Hh); [lia|]. specialize (Hh (Nat.le_refl 11)).
    destruct (run (firstn 11 rules) (start h i)) as [[[]|e] m'];
      cbn [fst snd start this heap] in *; [|intros _; left; exact Hh].
    cbn [run fold_right]. unfold bind.
    destruct (rule12_after fs grow m') as [_ Hr]. rewrite Ht, Hh in Hr.
    destruct (rule12 fs grow m') as [[[]|e] m'']; cbn [fst snd] in *;
      intros _; right; exact Hr. }
  destruct (run (firstn 12 rules) (start h i)) as [[[]|e] m'];
    cbn [fst snd start this heap] in *.
  - right.
    destruct (run_enforces _ _ (last_three_enforce fs ScanOptions PullPolicyOptions grow))
      as [_ Hk].
    destruct (Hk m') as [_ Hh].
    destruct (run (skipn 12 rules) m') as [[[]|e] m''];
      cbn [snd] in *; rewrite Hh; apply H12; reflexivity.
  - apply Hearly. discriminate.
Qed.

(** X9. [Validate] has no statement about [DstPath], [CVEUrlPath],
    [AuthToken] and [AuthTokenFile]: whatever the caller assigns to them,
    the result is the same. *)
Theorem unchecked_fields_do_not_matter
    (dstPath cveUrlPath authToken authTokenFile : string)
    (h : memory) (i : ImageInspectorOptions) :
  outcome h (with_unchecked dstPath cveUrlPath authToken authTokenFile i)
  = outcome h i.
Proof. rewrite !outcome_two_phase. reflexivity. Qed.

(** *** Conditions as propositions *)

Lemma Contains_In (s : string) (l : list string) : Contains s l = true <-> In s l.
Proof. rewrite <- StringInList_Contains. apply util_facts.StringInList_In. Qed.

Lemma Contains_not_In (s : string) (l : list string) :
  Contains s l = false <-> ~ In s l.
Proof. rewrite <- StringInList_Contains. apply util_facts.StringInList_false. Qed.

Lemma length_eqb_nil {A : Type} (l : list A) : (length l =? 0) = true <-> l = [].
Proof. destruct l; cbn; split; intros; congruence. Qed.

Lemma length_eqb_cons {A : Type} (l : list A) : (length l =? 0) = false <-> l <> [].
Proof. destruct l; cbn; split; intros; congruence. Qed.

Lemma is_directory_or_unseen (path : string) :
  exists_not_directory fs path = false
  <-> forall fi, fs path = StatOk fi -> IsDir fi = true.
Proof.
  unfold exists_not_directory, lookup. destruct (fs path) as [fi|e].
  - split.
    + intros H fi' E. inversion E; subst. destruct (IsDir fi'); [reflexivity | discriminate].
    + intros H. rewrite (H fi eq_refl). reflexivity.
  - split; [intros _ fi E; discriminate|].
    intros _. destruct (e =? ENOENT)%Z; reflexivity.
Qed.

Lemma seen_not_directory (path : string) :
  exists_not_directory fs path = true
  <-> exists fi, fs path = StatOk fi /\ IsDir fi = false.
Proof.
  unfold exists_not_directory, lookup. destruct (fs path) as [fi|e].
  - split.
    + intros H. exists fi. split; [reflexivity|]. destruct (IsDir fi); [discriminate | reflexivity].
    + intros (fi' & E & H). inversion E; subst. rewrite H. reflexivity.
  - split; [|intros (fi & E & _); discriminate].
    destruct (e =? ENOENT)%Z; discriminate.
Qed.

Lemma no_file_missing (files : list string) :
  find (fun p => nonempty p && missing fs p) files = None
  <-> forall fl, In fl files -> fl <> "" -> fs fl <> StatErr ENOENT.
Proof.
  split.
  - intros H fl Hin Hne Hfl. pose proof (find_none _ _ H fl Hin) as F. cbv beta in F.
    apply nonempty_true in Hne. apply missing_ENOENT in Hfl.
    rewrite Hne, Hfl in F. discriminate.
  - intros H. apply find_none_iff. intros fl Hin.
    destruct (nonempty fl) eqn:En; [|reflexivity].
    destruct (missing fs fl) eqn:Em; [|reflexivity].
    apply nonempty_true in En. apply missing_ENOENT in Em.
    destruct (H fl Hin En Em).
Qed.

Lemma all_in_domain (domain l : list string) :
  find (fun v => negb (Contains v domain)) l = None
  <-> forall v, In v l -> In v domain.
Proof.
  split.
  - intros H v Hin. pose proof (find_none _ _ H v Hin) as F. cbv beta in F.
    apply negb_false_iff, Contains_In in F. exact F.
  - intros H. apply find_none_iff. intros v Hin.
    apply negb_false_iff, Contains_In, H, Hin.
Qed.

Ltac scan H :=
  unfold spec.validation_rules, forbid in H; cbn [first_violation] in H;
  repeat match type of H with
         | context [option_map ?f ?o] =>
             let E := fresh "E" in destruct o eqn:E; cbn [option_map] in H
         | context [if ?b then _ else _] =>
             let E := fresh "E" in destruct b eqn:E
         end;
  try discriminate H.

Ltac props :=
  repeat match goal with
         | H : _ && _ = true |- _ => apply andb_prop in H; destruct H
         | H : _ || _ = false |- _ => apply orb_false_iff in H; destruct H
         | H : negb _ = false |- _ => apply negb_false_iff in H
         | H : negb _ = true |- _ => apply negb_true_iff in H
         | H : nonempty _ = true |- _ => apply nonempty_true in H
         | H : nonempty _ = false |- _ => apply nonempty_false in H
         | H : Contains _ _ = true |- _ => apply Contains_In in H
         | H : Contains _ _ = false |- _ => apply Contains_not_In in H
         | H : (length _ =? 0) = true |- _ => apply length_eqb_nil in H
         | H : (length _ =? 0) = false |- _ => apply length_eqb_cons in H
         | H : exists_not_directory _ _ = false |- _ =>
             apply is_directory_or_unseen in H
         | H : exists_not_directory _ _ = true |- _ =>
             apply seen_not_directory in H
         end.

Ltac bools :=
  repeat match goal with
         | H : ?s <> EmptyString |- _ => apply nonempty_true in H
         | H : ?s = EmptyString |- _ => apply nonempty_false in H
         | H : In _ _ |- _ => apply Contains_In in H
         | H : ~ In _ _ |- _ => apply Contains_not_In in H
         | H : ?l <> [] |- _ => apply length_eqb_cons in H
         | H : ?l = [] |- _ => apply length_eqb_nil in H
         end.

Ltac contradicts E :=
  intros; bools;
  repeat match goal with
         | H : ?b = true |- _ => assert_fails (constr_eq H E); rewrite H in E
         | H : ?b = false |- _ => assert_fails (constr_eq H E); rewrite H in E
         end;
  cbn in E; discriminate E.

Ltac falsify :=
  repeat match goal with
         | |- context [nonempty ?s] => destruct (nonempty s) eqn:?
         | |- context [Contains ?a ?b] => destruct (Contains a b) eqn:?
         | |- context [length ?l =? 0] => destruct (length l =? 0) eqn:?
         | |- context [exists_not_directory ?f ?p] =>
             destruct (exists_not_directory f p) eqn:?
         end;
  cbn; try reflexivity; props; exfalso.

(** X10. On a struct whose scan types are not in the cells the [append]
    of statement 12 writes, [Validate] returns [nil] exactly when the
    condition of none of its [if] statements holds. *)
Theorem Validate_nil_iff_accepted (h : memory) (i : ImageInspectorOptions) :
  ScanTypes_apart grow h i = true ->
  (outcome h i = Some None <-> accepted fs ScanOptions PullPolicyOptions h i).
Proof.
  intros Hapart.
  rewrite (outcome_first_violation fs ScanOptions PullPolicyOptions grow h i Hapart).
  unfold accepted. split.
  - intros H. apply Some_inj in H. scan H.
    cbn [config_of ConnectionURI ImageRef ContainerRef spec.ScanContainerChanges
           ServeAddress ChrootOnServe RegistryConfigFiles spec.Username
           spec.PasswordFile spec.ScanTypes spec.ScanResultsDir GenerateHTMLReport
           ClamAVSocketPath ResultPostURL ResultPostTokenFile spec.PullPolicy
           checked_files] in *.
    split; [apply negb_false_iff, nonempty_true in E1; exact E1|].
    split; [intros [? ?]; contradicts E2|].
    split; [intros [? ?]; contradicts E3|].
    split; [intros Hd Hc; rewrite Hd in E4; contradicts E4|].
    split; [intros [? ?]; contradicts E5|].
    split; [intros ? ?; contradicts E6|].
    split; [intros Hc Hs; rewrite Hc in E7; contradicts E7|].
    split; [intros ? ?; contradicts E8|].
    split.
    { intros Hd. apply nonempty_true in Hd. rewrite Hd in E9. cbn in E9.
      apply is_directory_or_unseen. exact E9. }
    split; [intros ? ?; contradicts E10|].
    split.
    { intros Hh. rewrite Hh in E11. cbn in E11. props. exact E11. }
    split; [apply no_file_missing; exact E|].
    split; [intros ? ?; contradicts E12|].
    split; [apply all_in_domain; exact E0|].
    props. exact E13.
  - intros (H1 & H2 & H3 & H4 & H5 & H6 & H7 & H8 & H9 & H10 & H11 & H12 & H13
            & H14 & H15).
    f_equal. unfold spec.validation_rules, forbid, checked_files.
    cbn [first_violation].
    cbn [config_of ConnectionURI ImageRef ContainerRef spec.ScanContainerChanges
           ServeAddress ChrootOnServe RegistryConfigFiles spec.Username
           spec.PasswordFile spec.ScanTypes spec.ScanResultsDir GenerateHTMLReport
           ClamAVSocketPath ResultPostURL ResultPostTokenFile spec.PullPolicy
           checked_files].
    apply no_file_missing in H12. apply all_in_domain in H14.
    rewrite H12, H14. cbn [option_map].
    assert (E1 : negb (nonempty (URI i)) = false) by (falsify; tauto).
    assert (E2 : nonempty (Image i) && nonempty (Container i) = false)
      by (falsify; tauto).
    assert (E3 : negb (nonempty (Image i) || nonempty (Container i)) = false)
      by (falsify; tauto).
    assert (E4 : cmd.ScanContainerChanges i && negb (nonempty (Container i)) = false)
      by (destruct (cmd.ScanContainerChanges i); falsify; intuition congruence).
    assert (E5 : negb (length (elems h (DockerCfg i)) =? 0)
                 && nonempty (cmd.Username i) = false) by (falsify; tauto).
    assert (E6 : nonempty (cmd.Username i) && negb (nonempty (cmd.PasswordFile i))
                 = false) by (falsify; tauto).
    assert (E7 : negb (nonempty (Serve i)) && Chroot i = false)
      by (destruct (Chroot i); falsify; intuition congruence).
    assert (E8 : nonempty (cmd.ScanResultsDir i)
                 && (length (elems h (cmd.ScanTypes i)) =? 0) = false)
      by (falsify; tauto).
    assert (E9 : nonempty (cmd.ScanResultsDir i)
                 && exists_not_directory fs (cmd.ScanResultsDir i) = false).
    { destruct (nonempty (cmd.ScanResultsDir i)) eqn:En; [|reflexivity].
      apply nonempty_true in En. apply is_directory_or_unseen, H9, En. }
    assert (E10 : nonempty (PostResultTokenFile i) && negb (nonempty (PostResultURL i))
                  = false) by (falsify; tauto).
    assert (E11 : OpenScapHTML i
                  && negb (Contains "openscap" (elems h (cmd.ScanTypes i))) = false)
      by (destruct (OpenScapHTML i); falsify; intuition congruence).
    assert (E13 : Contains "clamav" (elems h (cmd.ScanTypes i))
                  && negb (nonempty (ClamSocket i)) = false) by (falsify; tauto).
    assert (E15 : negb (Contains (cmd.PullPolicy i) PullPolicyOptions) = false)
      by (falsify; tauto).
    rewrite E1, E2, E3, E4, E5, E6, E7, E8, E9, E10, E11, E13, E15.
    reflexivity.
Qed.

(** X11. On a struct whose scan types are not in the cells the [append]
    of statement 12 writes, an error [Validate] returns is justified: the
    condition of the [if] statement that builds it holds of the struct,
    with the values the error names. *)
Theorem Validate_error_has_cause (h : memory) (i : ImageInspectorOptions) (e : error) :
  ScanTypes_apart grow h i = true ->
  outcome h i = Some (Some e) -> cause fs ScanOptions PullPolicyOptions h i e.
Proof.
  intros Hapart.
  rewrite (outcome_first_violation fs ScanOptions PullPolicyOptions grow h i Hapart).
  intros H. apply Some_inj in H.
  scan H;
    cbn [config_of ConnectionURI ImageRef ContainerRef spec.ScanContainerChanges
           ServeAddress ChrootOnServe RegistryConfigFiles spec.Username
           spec.PasswordFile spec.ScanTypes spec.ScanResultsDir GenerateHTMLReport
           ClamAVSocketPath ResultPostURL ResultPostTokenFile spec.PullPolicy
           checked_files] in *;
    inversion H; subst e; cbn [cause]; props;
    repeat match goal with
           | H : find _ _ = Some _ |- _ =>
               apply find_some in H; destruct H; props
           | H : missing _ _ = true |- _ => apply missing_ENOENT in H
           end;
    repeat split; solve [assumption | reflexivity | eauto].
Qed.

(** *** The calls of [os.Stat] *)

Lemma initial_segment_refl (l : list string) : initial_segment l l.
Proof. exists []. rewrite app_nil_r. reflexivity. Qed.

Lemma initial_segment_nil (l : list string) : initial_segment [] l.
Proof. exists l. reflexivity. Qed.

Lemma initial_segment_app (l0 l1 l2 : list string) :
  initial_segment l1 l2 -> initial_segment (l0 ++ l1) (l0 ++ l2).
Proof. intros [rest ->]. exists rest. rewrite app_assoc. reflexivity. Qed.

Lemma initial_segment_app_l (l1 l2 l3 : list string) :
  initial_segment l1 l2 -> initial_segment l1 (l2 ++ l3).
Proof. intros [rest ->]. exists (rest ++ l3). rewrite app_assoc. reflexivity. Qed.

Lemma looks_up_seq (P Q R : machine -> Prop) (s1 s2 : exec unit) (L1 L2 : list string) :
  looks_up P s1 L1 Q -> looks_up Q s2 L2 R -> looks_up P (s1 ;; s2) (L1 ++ L2) R.
Proof.
  intros H1 H2 m Pm. unfold bind.
  destruct (H1 m Pm) as (l1 & E1 & S1 & N1).
  destruct (s1 m) as [[[]|e] m']; cbn [fst snd] in *.
  - destruct (N1 eq_refl) as [-> Qm].
    destruct (H2 m' Qm) as (l2 & E2 & S2 & N2).
    exists (L1 ++ l2). rewrite E2, E1, <- app_assoc.
    split; [reflexivity|]. split; [apply initial_segment_app; exact S2|].
    intros Hn. destruct (N2 Hn) as [-> Rm]. auto.
  - exists l1. split; [exact E1|]. split; [apply initial_segment_app_l; exact S1|].
    discriminate.
Qed.

Lemma keeps_looks_up (P : machine -> Prop) (s : exec unit) :
  stateless s -> looks_up P s [] P.
Proof.
  intros H m Pm. exists []. rewrite (H m), app_nil_r.
  split; [reflexivity|]. split; [apply initial_segment_nil | auto].
Qed.

Lemma rule9_looks_up h i :
  looks_up (holds h i) (rule9 fs)
    (if 0 <? len (cmd.ScanResultsDir i) then [cmd.ScanResultsDir i] else [])
    (holds h i).
Proof.
  intros m [Hi Hh]. unfold rule9, bind, self, when, Stat. rewrite Hi.
  destruct (0 <? len (cmd.ScanResultsDir i)).
  - exists [cmd.ScanResultsDir i].
    destruct (fs (cmd.ScanResultsDir i)) as [fi|e]; [destruct (IsDir fi)|]; cbn;
      (split; [reflexivity|]); (split; [apply initial_segment_refl|]);
      intros Hn; first [discriminate Hn | split; [reflexivity | split; assumption]].
  - exists []. cbn. rewrite app_nil_r.
    split; [reflexivity|]. split; [apply initial_segment_nil|].
    intros _. split; [reflexivity | split; assumption].
Qed.

Lemma files_loop_log (l : list string) m :
  exists seen,
    stat_log (snd (for_range l (check_file fs) m)) = stat_log m ++ seen
    /\ initial_segment seen (filter (fun fl => 0 <? len fl) l)
    /\ (fst (for_range l (check_file fs) m) = Normal tt
        -> seen = filter (fun fl => 0 <? len fl) l).
Proof.
  revert m. induction l as [|p l IH]; intros m.
  - exists []. cbn. rewrite app_nil_r.
    repeat split. apply initial_segment_nil.
  - cbn [for_range filter]. unfold bind. rewrite check_file_step, len_pos.
    destruct (nonempty p).
    + destruct (missing fs p).
      * exists [p]. cbn. split; [reflexivity|]. split; [|discriminate].
        exists (filter (fun fl => 0 <? len fl) l). reflexivity.
      * destruct (IH {| this := this m; heap := heap m;
                        stat_log := stat_log m ++ [p] |})
          as (seen & H1 & H2 & H3).
        exists (p :: seen). rewrite H1. cbn [stat_log]. rewrite <- app_assoc.
        split; [reflexivity|]. split.
        -- apply (initial_segment_app [p]). exact H2.
        -- intros Hn. rewrite (H3 Hn). reflexivity.
    + apply IH.
Qed.

Lemma rule12_looks_up h i :
  looks_up (holds h i) (rule12 fs grow)
    (filter (fun fl => 0 <? len fl) (elems h (DockerCfg i) ++ [cmd.PasswordFile i]))
    (fun _ => True).
Proof.
  intros m [Hi Hh]. rewrite rule12_runs, Hi, Hh.
  match goal with
  | |- context [for_range ?l ?b ?m'] =>
      destruct (files_loop_log l m') as (seen & L1 & L2 & L3)
  end.
  exists seen. cbn [stat_log] in L1. split; [exact L1|]. split; [exact L2|].
  intros Hn. split; [exact (L3 Hn) | exact I].
Qed.

Lemma rule14_stateless : stateless (rule14 ScanOptions).
Proof.
  intros m. unfold rule14, bind, self.
  destruct (0 <? slice_len (cmd.ScanTypes (this m))); [|reflexivity].
  change (when true ?s m) with (s m). cbv beta.
  rewrite (range_for_range _ _ _ (scan_type_check_heap ScanOptions)), scan_types_loop.
  reflexivity.
Qed.

Lemma rules_look_up h i :
  looks_up (holds h i) (run rules) (lookups h i) (fun _ => True).
Proof.
  assert (H : looks_up (holds h i) (run rules)
                ([] ++ [] ++ [] ++ [] ++ [] ++ [] ++ [] ++ []
                 ++ (if 0 <? len (cmd.ScanResultsDir i)
                     then [cmd.ScanResultsDir i] else [])
                 ++ [] ++ []
                 ++ filter (fun fl => 0 <? len fl)
                      (elems h (DockerCfg i) ++ [cmd.PasswordFile i])
                 ++ [] ++ [] ++ [] ++ [])
                (fun _ => True)).
  { unfold cmd.rules, run, fold_right.
    apply (looks_up_seq _ (holds h i));
      [exact (keeps_looks_up _ _ (check_stateless _ (fun _ => MissingConnection)))|].
    apply (looks_up_seq _ (holds h i));
      [exact (keeps_looks_up _ _ (check_stateless _ (fun _ => ConflictingTarget)))|].
    apply (looks_up_seq _ (holds h i));
      [exact (keeps_looks_up _ _ (check_stateless _ (fun _ => MissingTarget)))|].
    apply (looks_up_seq _ (holds h i));
      [exact (keeps_looks_up _ _
                (check_stateless _ (fun _ => MissingContainerForDiff)))|].
    apply (looks_up_seq _ (holds h i));
      [exact (keeps_looks_up _ _ (check_stateless _ (fun _ => ConflictingAuth)))|].
    apply (looks_up_seq _ (holds h i));
      [exact (keeps_looks_up _ _ (check_stateless _ (fun _ => MissingPasswordFile)))|].
    apply (looks_up_seq _ (holds h i));
      [exact (keeps_looks_up _ _ (check_stateless _ (fun _ => ChrootRequiresServe)))|].
    apply (looks_up_seq _ (holds h i));
      [exact (keeps_looks_up _ _
                (check_stateless _ (fun _ => ResultsDirWithoutScanType)))|].
    apply (looks_up_seq _ (holds h i)); [apply rule9_looks_up|].
    apply (looks_up_seq _ (holds h i));
      [exact (keeps_looks_up _ _
                (check_stateless _ (fun _ => TokenFileWithoutPostURL)))|].
    apply (looks_up_seq _ (holds h i));
      [exact (keeps_looks_up _ _
                (search_stateless "openscap" cmd.ScanTypes
                   (fun j found => OpenScapHTML j && negb found)
                   HTMLReportRequiresOpenSCAP))|].
    apply (looks_up_seq _ (fun _ => True)); [apply rule12_looks_up|].
    apply (looks_up_seq _ (fun _ => True));
      [exact (keeps_looks_up _ _
                (search_stateless "clamav" cmd.ScanTypes
                   (fun j found => found && (len (ClamSocket j) =? 0))
                   MissingClamSocket))|].
    apply (looks_up_seq _ (fun _ => True));
      [exact (keeps_looks_up _ _ rule14_stateless)|].
    apply (looks_up_seq _ (fun _ => True));
      [exact (keeps_looks_up _ _
                (check_stateless _
                   (fun j => InvalidPullPolicy (cmd.PullPolicy j) PullPolicyOptions)))|].
    apply keeps_looks_up. intros m. reflexivity. }
  cbn [app] in H. rewrite !app_nil_r in H. exact H.
Qed.

(** X12. The paths [Validate] hands to [os.Stat] are an initial segment of
    the named results directory followed by the named files of [DockerCfg]
    and the named password file, in this order, and all of them when it
    returns [nil]. It never looks up an empty path, nor a path of another
    field, and makes at most two calls more than [DockerCfg] has
    elements. *)
Theorem Validate_stat_calls (h : memory) (i : ImageInspectorOptions) :
  initial_segment (stat_calls h i) (lookups h i)
  /\ (outcome h i = Some None -> stat_calls h i = lookups h i)
  /\ (forall p, In p (stat_calls h i) ->
        p <> ""
        /\ (p = cmd.ScanResultsDir i \/ In p (elems h (DockerCfg i))
            \/ p = cmd.PasswordFile i))
  /\ length (stat_calls h i) <= 2 + slice_len (DockerCfg i).
Proof.
  destruct (rules_look_up h i (start h i) (conj eq_refl eq_refl))
    as (l & H1 & H2 & H3).
  cbn [start stat_log app] in H1.
  assert (Hrun : Validate (start h i) = (run rules ;; Return None) (start h i))
    by apply Validate_run.
  assert (Hs : stat_calls h i = l).
  { unfold cmd.stat_calls. rewrite Hrun. unfold bind.
    destruct (run rules (start h i)) as [[[]|e] m']; exact H1. }
  assert (Hin : forall p, In p (lookups h i) ->
            p <> "" /\ (p = cmd.ScanResultsDir i \/ In p (elems h (DockerCfg i))
                        \/ p = cmd.PasswordFile i)).
  { intros p Hp. unfold lookups in Hp. apply in_app_iff in Hp as [Hp|Hp].
    - destruct (0 <? len (cmd.ScanResultsDir i)) eqn:E; [|destruct Hp].
      destruct Hp as [<-|[]]. rewrite len_pos in E.
      split; [apply nonempty_true, E | left; reflexivity].
    - apply filter_In in Hp as [Hp E]. rewrite len_pos in E.
      split; [apply nonempty_true, E|].
      apply in_app_iff in Hp as [Hp|[<-|[]]]; auto. }
  rewrite Hs. split; [exact H2|]. split; [|split].
  - intros Ho. apply H3. unfold cmd.outcome in Ho. rewrite Hrun in Ho.
    unfold bind in Ho.
    assert (Hnn : fst (run rules (start h i)) <> Returned None).
    { rewrite <- (firstn_all rules). change (length rules) with 15.
      replace 15 with (12 + 3) by reflexivity.
      rewrite firstn_plus, run_app. unfold bind.
      destruct (prefix_enforces fs ScanOptions PullPolicyOptions grow 12 (start h i)
                  (Nat.le_refl 12)) as (Hf & _).
      destruct (run (firstn 12 rules) (start h i)) as [[[]|e] m1]; cbn [fst] in *.
      - destruct (run_enforces _ _
                    (Forall2_firstn _ 3 _ _
                       (last_three_enforce fs ScanOptions PullPolicyOptions grow)))
          as [Hd _].
        destruct (run (firstn 3 (skipn 12 rules)) m1) as [c2 m2] eqn:E2.
        pose proof (Hd m1) as Hl. rewrite E2 in Hl. cbn [fst] in Hl.
        destruct c2 as [[]|e2]; cbn [fst]; [discriminate|].
        symmetry in Hl. apply verdict_Returned in Hl as [Hne ->].
        intros Heq. apply Hne. congruence.
      - symmetry in Hf. apply verdict_Returned in Hf as [Hne ->].
        intros Heq. apply Hne. congruence. }
    destruct (run rules (start h i)) as [[[]|[e|]] m']; cbn [fst] in *;
      [reflexivity | discriminate | contradiction].
  - intros p Hp. apply Hin. destruct H2 as [rest ->]. apply in_app_iff. left. exact Hp.
  - destruct H2 as [rest E].
    assert (Hl : length (lookups h i) <= 2 + slice_len (DockerCfg i)).
    { unfold lookups. rewrite length_app.
      pose proof (filter_length_le (fun fl => 0 <? len fl)
                    (elems h (DockerCfg i) ++ [cmd.PasswordFile i])) as F.
      rewrite length_app, slice_len_elems in F. cbn [length] in F.
      destruct (0 <? len (cmd.ScanResultsDir i)); cbn [length]; lia. }
    rewrite E, length_app in Hl. lia.
Qed.

(** *** De-duplicated flags *)

Lemma Unique_empty (l : list string) :
  (length (util.Unique l) =? 0) = (length l =? 0).
Proof.
  destruct l as [|x l]; [reflexivity|]. cbn [length Nat.eqb].
  destruct (util.Unique (x :: l)) eqn:E; [|reflexivity].
  assert (H : In x (util.Unique (x :: l))) by (apply util_facts.Unique_In; left; reflexivity).
  rewrite E in H. destruct H.
Qed.

Lemma Unique_Contains (s : string) (l : list string) :
  Contains s (util.Unique l) = Contains s l.
Proof. rewrite <- !StringInList_Contains. apply util_facts.Unique_mem. Qed.

Lemma find_app_first {A : Type} (P : A -> bool) (l1 l2 : list A) :
  find P (l1 ++ l2)
  = match find P l1 with
    | Some x => Some x
    | None => find P l2
    end.
Proof.
  induction l1 as [|x l1 IH]; [reflexivity|].
  cbn [app]. unfold find at 1 2. fold (find P (l1 ++ l2)). fold (find P l1).
  destruct (P x); [reflexivity | exact IH].
Qed.

(** X13. On structs whose scan types are not in the cells the [append] of
    statement 12 writes, de-duplicating the repeated flags with
    [util.Unique] before the call does not change what [Validate] returns:
    the same error, naming the same value, or [nil]. *)
Theorem Validate_after_Unique (h h' : memory) (i j : ImageInspectorOptions) :
  ScanTypes_apart grow h i = true ->
  ScanTypes_apart grow h' j = true ->
  config_of h' j = deduplicated (config_of h i) ->
  outcome h' j = outcome h i.
Proof.
  intros Hi Hj Hc.
  rewrite (outcome_first_violation fs ScanOptions PullPolicyOptions grow h i Hi),
    (outcome_first_violation fs ScanOptions PullPolicyOptions grow h' j Hj), Hc.
  f_equal. generalize (config_of h i). intros c.
  unfold spec.validation_rules, forbid, checked_files. cbn [first_violation].
  cbn [deduplicated ConnectionURI ImageRef ContainerRef
         spec.ScanContainerChanges ServeAddress ChrootOnServe RegistryConfigFiles
         spec.Username spec.PasswordFile spec.ScanTypes spec.ScanResultsDir
         GenerateHTMLReport ClamAVSocketPath ResultPostURL ResultPostTokenFile
         spec.PullPolicy].
  rewrite !Unique_empty, !Unique_Contains.
  rewrite (find_app_first _ (util.Unique (RegistryConfigFiles c))),
    (find_app_first _ (RegistryConfigFiles c)), !util_laws.Unique_find.
  reflexivity.
Qed.

(** *** One theorem per early return *)

Ltac decide_rule :=
  unfold spec.rule_no, spec.validation_rules, forbid, checked_files;
  cbn [nth Nat.sub first_violation];
  cbn [config_of ConnectionURI ImageRef ContainerRef spec.ScanContainerChanges
         ServeAddress ChrootOnServe RegistryConfigFiles spec.Username
         spec.PasswordFile spec.ScanTypes spec.ScanResultsDir GenerateHTMLReport
         ClamAVSocketPath ResultPostURL ResultPostTokenFile spec.PullPolicy];
  bools;
  repeat match goal with
         | H : ?b = true |- context [?b] => rewrite H
         | H : ?b = false |- context [?b] => rewrite H
         end;
  cbn [andb orb negb option_map]; try reflexivity.

(** X14. With a connection but neither an image nor a container,
    [Validate] returns the missing-target error, whatever else is set. *)
Theorem no_target_MissingTarget (h : memory) (i : ImageInspectorOptions) :
  URI i <> "" -> Image i = "" -> Container i = "" ->
  outcome h i = Some (Some MissingTarget).
Proof.
  intros HU HI HC. rewrite outcome_two_phase. f_equal. cbn [firstn]. decide_rule.
Qed.

(** X15. Container-diff mode without a container never validates: with an
    image the error is the missing-container one, without it the
    missing-target one. *)
Theorem diff_without_container (h : memory) (i : ImageInspectorOptions) :
  URI i <> "" -> Container i = "" -> cmd.ScanContainerChanges i = true ->
  outcome h i
  = Some (Some match Image i with
               | EmptyString => MissingTarget
               | _ => MissingContainerForDiff
               end).
Proof.
  intros HU HC HD. rewrite outcome_two_phase. f_equal. cbn [firstn].
  destruct (Image i) eqn:EI.
  - decide_rule.
  - assert (HI : Image i <> "") by (rewrite EI; discriminate). decide_rule.
Qed.

(** X16. On a struct that passes the first four statements, registry
    files together with a username give the conflicting-authentication
    error. *)
Theorem dockercfg_and_username_ConflictingAuth (h : memory) (i : ImageInspectorOptions) :
  fst (run (firstn 4 rules) (start h i)) = Normal tt ->
  elems h (DockerCfg i) <> [] -> cmd.Username i <> "" ->
  outcome h i = Some (Some ConflictingAuth).
Proof.
  intros Hp HD HU.
  apply (fails_at fs ScanOptions PullPolicyOptions grow 4 h i _ ltac:(lia) Hp).
  decide_rule.
Qed.

(** X17. On a struct that passes the first five statements, a username
    without a password file gives the missing-password-file error. *)
Theorem username_without_password_file (h : memory) (i : ImageInspectorOptions) :
  fst (run (firstn 5 rules) (start h i)) = Normal tt ->
  cmd.Username i <> "" -> cmd.PasswordFile i = "" ->
  outcome h i = Some (Some MissingPasswordFile).
Proof.
  intros Hp HU HP.
  apply (fails_at fs ScanOptions PullPolicyOptions grow 5 h i _ ltac:(lia) Hp).
  decide_rule.
Qed.

(** X18. On a struct that passes the first six statements, [Chroot]
    without a serve address gives the chroot error. *)
Theorem chroot_without_serve (h : memory) (i : ImageInspectorOptions) :
  fst (run (firstn 6 rules) (start h i)) = Normal tt ->
  Serve i = "" -> Chroot i = true ->
  outcome h i = Some (Some ChrootRequiresServe).
Proof.
  intros Hp HS HC.
  apply (fails_at fs ScanOptions PullPolicyOptions grow 6 h i _ ltac:(lia) Hp).
  decide_rule.
Qed.

(** X19. On a struct that passes the first seven statements, a results
    directory without any scan type gives the corresponding error, and the
    directory is not even looked up: no call of [os.Stat] is made. *)
Theorem results_dir_without_scan_type (h : memory) (i : ImageInspectorOptions) :
  fst (run (firstn 7 rules) (start h i)) = Normal tt ->
  cmd.ScanResultsDir i <> "" -> elems h (cmd.ScanTypes i) = [] ->
  outcome h i = Some (Some ResultsDirWithoutScanType)
  /\ stat_calls h i = [].
Proof.
  intros Hp HD HS.
  assert (Hv : rule_no 8 (config_of h i) = Some ResultsDirWithoutScanType)
    by decide_rule.
  split; [apply (fails_at fs ScanOptions PullPolicyOptions grow 7 h i _
                   ltac:(lia) Hp Hv)|].
  apply prefix_passes in Hp; [|lia].
  destruct (Validate_stops_at fs ScanOptions PullPolicyOptions grow 7 h i _
              ltac:(lia) Hp Hv) as [Hs _].
  unfold cmd.stat_calls. rewrite Hs.
  rewrite (first_eight_stateless fs ScanOptions PullPolicyOptions grow (start h i)).
  reflexivity.
Qed.

(** X20. On a struct that passes the first nine statements, a token file
    without a post URL gives the corresponding error. *)
Theorem token_file_without_post_url (h : memory) (i : ImageInspectorOptions) :
  fst (run (firstn 9 rules) (start h i)) = Normal tt ->
  PostResultTokenFile i <> "" -> PostResultURL i = "" ->
  outcome h i = Some (Some TokenFileWithoutPostURL).
Proof.
  intros Hp HT HU.
  apply (fails_at fs ScanOptions PullPolicyOptions grow 9 h i _ ltac:(lia) Hp).
  decide_rule.
Qed.

(** X21. On a struct that passes the first ten statements, the HTML report
    without the scan type openscap gives the corresponding error. *)
Theorem html_report_without_openscap (h : memory) (i : ImageInspectorOptions) :
  fst (run (firstn 10 rules) (start h i)) = Normal tt ->
  OpenScapHTML i = true -> ~ In "openscap" (elems h (cmd.ScanTypes i)) ->
  outcome h i = Some (Some HTMLReportRequiresOpenSCAP).
Proof.
  intros Hp HH HO.
  apply (fails_at fs ScanOptions PullPolicyOptions grow 10 h i _ ltac:(lia) Hp).
  decide_rule.
Qed.

(** X22. On a struct whose scan types are not in the cells the [append] of
    statement 12 writes and that passes the first twelve statements, the
    scan type clamav without a clam socket gives the missing-clam-socket
    error, wherever clamav stands among the scan types. *)
Theorem clamav_without_socket (h : memory) (i : ImageInspectorOptions) :
  ScanTypes_apart grow h i = true ->
  fst (run (firstn 12 rules) (start h i)) = Normal tt ->
  In "clamav" (elems h (cmd.ScanTypes i)) -> ClamSocket i = "" ->
  outcome h i = Some (Some MissingClamSocket).
Proof.
  intros Ha Hp HI HC. apply (fails_at_apart 12 h i _ Ha Hp). decide_rule.
Qed.

(** X23. On a struct whose scan types are not in the cells the [append] of
    statement 12 writes and that passes the first thirteen statements, the
    first scan type, in the order given, that is outside the domain is the
    one the invalid-scan-type error names, and the message lists the
    domain. *)
Theorem first_unknown_scan_type (h : memory) (i : ImageInspectorOptions)
    (before behind : list string) (v : string) (quote : string -> string) :
  ScanTypes_apart grow h i = true ->
  fst (run (firstn 13 rules) (start h i)) = Normal tt ->
  elems h (cmd.ScanTypes i) = before ++ v :: behind ->
  (forall x, In x before -> In x ScanOptions) -> ~ In v ScanOptions ->
  outcome h i = Some (Some (InvalidScanType v ScanOptions))
  /\ Error quote (InvalidScanType v ScanOptions)
     = (v ++ " is not one of the available scan-types which are ["
          ++ String.concat " " ScanOptions ++ "]")%string.
Proof.
  intros Ha Hp HS Hb Hv. split; [|reflexivity].
  apply (fails_at_apart 13 h i _ Ha Hp).
  unfold spec.rule_no, spec.validation_rules. cbn [nth Nat.sub].
  cbn [config_of spec.ScanTypes]. rewrite HS, (find_first _ before behind v).
  - reflexivity.
  - intros x Hx. apply negb_false_iff, Contains_In, Hb, Hx.
  - apply negb_true_iff, Contains_not_In, Hv.
Qed.

Lemma run_keeps_this (rs : list (exec unit)) :
  Forall (fun s => forall m, this (snd (s m)) = this m) rs ->
  forall m, this (snd (run rs m)) = this m.
Proof.
  induction 1 as [|r rs Hr _ IH]; intros m; [reflexivity|].
  cbn [run fold_right]. fold (run rs). unfold bind.
  specialize (Hr m). destruct (r m) as [[[]|e] m']; cbn [snd] in *.
  - rewrite IH. exact Hr.
  - exact Hr.
Qed.

Lemma Forall_prefix {A : Type} (P : A -> Prop) (n : nat) (l : list A) :
  Forall P l -> Forall P (firstn n l).
Proof.
  intros H. revert n. induction H as [|x l Hx _ IH]; intros [|n]; cbn [firstn];
    constructor; auto.
Qed.

Lemma rules_keep_this :
  Forall (fun s => forall m, this (snd (s m)) = this m) rules.
Proof.
  unfold cmd.rules. repeat first [apply Forall_nil | apply Forall_cons]; intros m.
  - apply (proj2 (rule1_enforces fs ScanOptions PullPolicyOptions) m).
  - apply (proj2 (rule2_enforces fs ScanOptions PullPolicyOptions) m).
  - apply (proj2 (rule3_enforces fs ScanOptions PullPolicyOptions) m).
  - apply (proj2 (rule4_enforces fs ScanOptions PullPolicyOptions) m).
  - apply (proj2 (rule5_enforces fs ScanOptions PullPolicyOptions) m).
  - apply (proj2 (rule6_enforces fs ScanOptions PullPolicyOptions) m).
  - apply (proj2 (rule7_enforces fs ScanOptions PullPolicyOptions) m).
  - apply (proj2 (rule8_enforces fs ScanOptions PullPolicyOptions) m).
  - apply (proj2 (rule9_enforces fs ScanOptions PullPolicyOptions) m).
  - apply (proj2 (rule10_enforces fs ScanOptions PullPolicyOptions) m).
  - apply (proj2 (rule11_enforces fs ScanOptions PullPolicyOptions) m).
  - apply (rule12_after fs grow m).
  - apply (proj2 (rule13_enforces fs ScanOptions PullPolicyOptions) m).
  - apply (proj2 (rule14_enforces fs ScanOptions PullPolicyOptions) m).
  - apply (proj2 (rule15_enforces fs ScanOptions PullPolicyOptions) m).
Qed.

(** X24. On a struct that passes the first fourteen statements, a pull
    policy outside the domain gives the invalid-pull-policy error, whose
    message names the policy and lists the domain. *)
Theorem unknown_pull_policy (h : memory) (i : ImageInspectorOptions)
    (quote : string -> string) :
  fst (run (firstn 14 rules) (start h i)) = Normal tt ->
  ~ In (cmd.PullPolicy i) PullPolicyOptions ->
  outcome h i = Some (Some (InvalidPullPolicy (cmd.PullPolicy i) PullPolicyOptions))
  /\ Error quote (InvalidPullPolicy (cmd.PullPolicy i) PullPolicyOptions)
     = (cmd.PullPolicy i
          ++ " is not one of the available pull-policy options which are ["
          ++ String.concat " " PullPolicyOptions ++ "]")%string.
Proof.
  intros Hp HP. split; [|reflexivity].
  unfold cmd.outcome. rewrite (Validate_split fs ScanOptions PullPolicyOptions grow 14).
  unfold bind at 1.
  assert (Ht : this (snd (run (firstn 14 rules) (start h i))) = i)
    by apply (run_keeps_this _ (Forall_prefix _ 14 _ rules_keep_this) (start h i)).
  revert Hp Ht.
  destruct (run (firstn 14 rules) (start h i)) as [[[]|e] m'];
    cbn [fst snd start this]; intros Hp Ht; [|discriminate].
  change (skipn 14 rules) with [rule15 PullPolicyOptions].
  cbn [run fold_right]. unfold bind.
  pose proof (proj1 (rule15_enforces fs ScanOptions PullPolicyOptions) m') as Hd.
  rewrite Ht in Hd.
  assert (Hv : spec.rule_no fs ScanOptions PullPolicyOptions 15
                 (config_of (heap m') i)
               = Some (InvalidPullPolicy (cmd.PullPolicy i) PullPolicyOptions))
    by decide_rule.
  unfold spec.rule_no in Hd, Hv. cbn [nth Nat.sub spec.validation_rules] in Hd, Hv.
  rewrite Hv in Hd.
  destruct (rule15 PullPolicyOptions m') as [[[]|e] m'']; cbn [fst verdict] in *;
    [discriminate | congruence].
Qed.

(** X25. The default options become valid with a target alone: with an
    image, or with a container in either mode, [Validate] returns [nil]
    provided the default pull policy is in the domain, and the
    invalid-pull-policy error otherwise; an image in container-diff mode
    and an image with a container are refused. *)
Theorem default_options_with_a_target
    (CVEUrl PullIfNotPresent image container : string) (diff : bool) (h : memory) :
  image <> "" -> container <> "" ->
  let d := NewDefaultImageInspectorOptions CVEUrl PullIfNotPresent in
  let verdict_on_policy :=
    if util.StringInList PullIfNotPresent PullPolicyOptions then Some None
    else Some (Some (InvalidPullPolicy PullIfNotPresent PullPolicyOptions)) in
  outcome h (with_target image "" false d) = verdict_on_policy
  /\ outcome h (with_target "" container diff d) = verdict_on_policy
  /\ outcome h (with_target image "" true d) = Some (Some MissingContainerForDiff)
  /\ outcome h (with_target image container diff d) = Some (Some ConflictingTarget).
Proof.
  intros HI HC d verdict_on_policy. subst d verdict_on_policy.
  destruct image as [|a image]; [contradiction|].
  destruct container as [|b container]; [contradiction|].
  rewrite !outcome_two_phase, StringInList_Contains.
  unfold spec.validation_rules, forbid, checked_files, nonempty.
  cbn [firstn skipn first_violation config_of with_target
         NewDefaultImageInspectorOptions
         ConnectionURI ImageRef ContainerRef
         spec.ScanContainerChanges ServeAddress ChrootOnServe RegistryConfigFiles
         spec.Username spec.PasswordFile spec.ScanTypes spec.ScanResultsDir
         GenerateHTMLReport ClamAVSocketPath ResultPostURL ResultPostTokenFile
         spec.PullPolicy URI Image Container cmd.ScanContainerChanges Serve Chroot
         DockerCfg cmd.Username cmd.PasswordFile cmd.ScanTypes cmd.ScanResultsDir
         OpenScapHTML ClamSocket PostResultURL PostResultTokenFile cmd.PullPolicy
         elems empty_slice ptr slice_len seq map].
  destruct diff; cbn;
    destruct (Contains PullIfNotPresent PullPolicyOptions); repeat split; reflexivity.
Qed.

(** X26. On a struct whose scan types are not in the cells the [append] of
    statement 12 writes, [Validate] enforces the 15 rules of the
    specification in their order: it returns the failure of the first rule
    the configuration violates, or [nil]; it returns [nil] exactly when no
    rule is violated; and when rule [n + 1] is the first one violated, the
    call consists of the first [n + 1] statements only. *)
Theorem first_violation_when_apart (h : memory) (i : ImageInspectorOptions) :
  ScanTypes_apart grow h i = true ->
  length validation_rules = 15
  /\ outcome h i = Some (first_violation validation_rules (config_of h i))
  /\ (outcome h i = Some None
      <-> forall r, In r validation_rules -> r (config_of h i) = None)
  /\ (forall n e,
        passes_upto fs ScanOptions PullPolicyOptions n (config_of h i) ->
        rule_no (S n) (config_of h i) = Some e ->
        outcome h i = Some (Some e)
        /\ Validate (start h i) = run (firstn (S n) rules) (start h i)).
Proof.
  intros Ha.
  pose proof (outcome_first_violation fs ScanOptions PullPolicyOptions grow h i Ha)
    as Ho.
  split; [reflexivity|]. split; [exact Ho|]. split.
  - rewrite Ho, <- first_violation_None.
    split; [congruence | intros ->; reflexivity].
  - intros n e Hp Hv. apply (fails_at_apart n h i e Ha); [|exact Hv].
    destruct (prefix_enforces_apart n h i Ha) as [Hf _].
    rewrite Hf. unfold passes_upto in Hp. rewrite Hp. reflexivity.
Qed.

(** X27. On a struct where the [append] of statement 12 writes no cell
    that [DockerCfg] or [ScanTypes] shows, [Validate] is a function of the
    configuration and changes nothing that shows: a struct that stands
    for the same configuration gets the same result, whatever the
    capacities, and after the call every field shows what it showed
    before. *)
Theorem unchanged_when_apart (h h' : memory) (i j : ImageInspectorOptions) :
  slices_apart grow h i = true ->
  ScanTypes_apart grow h' j = true ->
  config_of h i = config_of h' j ->
  outcome h i = outcome h' j
  /\ config_of (after h i) i = config_of h i.
Proof.
  intros Hs Hj Hc. unfold slices_apart in Hs. apply andb_prop in Hs as [Hd Ht].
  split.
  - rewrite (outcome_first_violation fs ScanOptions PullPolicyOptions grow h i Ht),
      (outcome_first_violation fs ScanOptions PullPolicyOptions grow h' j Hj), Hc.
    reflexivity.
  - destruct (after_cases h i) as [->| ->]; [reflexivity|].
    unfold config_of, appended.
    rewrite (apart_elems _ _ _ _ _ Hd), (apart_elems _ _ _ _ _ Ht). reflexivity.
Qed.

(** X28. What [Validate] returns on any struct and memory, shared arrays
    included: the failure of the first rule among rules 1 to 12 that the
    configuration given violates; if there is none, the failure of the
    first rule among rules 13 to 15 violated by the configuration that the
    struct stands for after [append(i.DockerCfg, i.PasswordFile)] has run;
    else [nil]. The memory after the call is the one given or the one that
    [append] leaves. *)
Theorem Validate_in_two_phases (h : memory) (i : ImageInspectorOptions) :
  outcome h i
  = Some match first_violation (firstn 12 validation_rules) (config_of h i) with
         | Some e => Some e
         | None =>
             first_violation (skipn 12 validation_rules)
               (config_of (appended grow h i) i)
         end
  /\ (after h i = h \/ after h i = appended grow h i)
  /\ (first_violation (firstn 12 validation_rules) (config_of h i) = None ->
      after h i = appended grow h i).
Proof.
  split; [apply outcome_two_phase|]. split; [apply after_cases|].
  intros Hp. unfold cmd.after.
  rewrite (Validate_split fs ScanOptions PullPolicyOptions grow 12).
  unfold bind, Return.
  pose proof (after_twelve fs ScanOptions PullPolicyOptions grow (start h i)) as H12.
  pose proof (passes_prefix fs ScanOptions PullPolicyOptions grow 12 h i
                (Nat.le_refl 12) Hp) as Hn.
  revert H12 Hn.
  destruct (run (firstn 12 rules) (start h i)) as [[[]|e] m'];
    cbn [fst snd start this heap]; intros H12 Hn; [|discriminate].
  destruct (run_enforces _ _ (last_three_enforce fs ScanOptions PullPolicyOptions grow))
    as [_ Hk].
  destruct (Hk m') as [_ Hh].
  destruct (run (skipn 12 rules) m') as [[[]|e] m'']; cbn [snd] in *;
    rewrite Hh; apply H12; reflexivity.
Qed.

End Laws.

(** *** The laws at concrete inputs *)

Section Runs.
Import examples scenarios.

Local Abbreviation outcome := (outcome disk scan_options pull_policy_options doubling).
Local Abbreviation rules := (rules disk scan_options pull_policy_options doubling).
Local Abbreviation validation_rules :=
  (validation_rules disk scan_options pull_policy_options).

Lemma Set_twice_on_a_full_slice :
  let (sv', h') :=
    Set_all doubling (first_slice ["/root/.dockercfg"], one_array)
      ["/etc/a"; "/etc/b"] in
  elems h' sv' = ["/root/.dockercfg"; "/etc/a"; "/etc/b"]
  /\ slice_len sv' = 3
  /\ (1 <= 1 -> slice_len sv' <= slice_cap sv')
  /\ (let (sv0, h0) := Set_all doubling (empty_slice, one_array) ["/etc/a"; "/etc/b"] in
      String_ h0 sv0 = "[/etc/a /etc/b]").
Proof.
  exact (Set_accumulates doubling one_array (first_slice ["/root/.dockercfg"])
           ["/etc/a"; "/etc/b"]).
Defined.

Lemma two_arrays_accepted :
  ScanTypes_apart doubling one_array on_two_arrays = true
  /\ (outcome one_array on_two_arrays = Some None
      <-> accepted disk scan_options pull_policy_options one_array on_two_arrays).
Proof.
  split; [reflexivity|].
  apply (Validate_nil_iff_accepted disk scan_options pull_policy_options doubling).
  reflexivity.
Defined.

Lemma many_faults_cause :
  ScanTypes_apart doubling (built [] ["bogus"]) many_faults = true
  /\ outcome (built [] ["bogus"]) many_faults
     = Some (Some (ResultsDirNotADirectory "/tmp/existing-file-not-dir"))
  /\ cause disk scan_options pull_policy_options (built [] ["bogus"]) many_faults
       (ResultsDirNotADirectory "/tmp/existing-file-not-dir").
Proof.
  split; [reflexivity|]. split; [reflexivity|].
  apply (Validate_error_has_cause disk scan_options pull_policy_options doubling).
  - reflexivity.
  - reflexivity.
Defined.

Lemma repeated_flags_run :
  let h := built ["/root/.dockercfg"; "/root/.dockercfg"] ["bogus"; "openscap"; "bogus"] in
  let i := options "busybox" "" false ["/root/.dockercfg"; "/root/.dockercfg"] ""
             ["bogus"; "openscap"; "bogus"] "" "always" in
  let h' := built ["/root/.dockercfg"] ["bogus"; "openscap"] in
  let j := options "busybox" "" false ["/root/.dockercfg"] ""
             ["bogus"; "openscap"] "" "always" in
  ScanTypes_apart doubling h i = true
  /\ ScanTypes_apart doubling h' j = true
  /\ config_of h' j = deduplicated (config_of h i)
  /\ outcome h' j = outcome h i
  /\ outcome h i = Some (Some (InvalidScanType "bogus" scan_options)).
Proof.
  intros h i h' j.
  split; [reflexivity|]. split; [reflexivity|]. split; [reflexivity|].
  split; [|reflexivity].
  apply (Validate_after_Unique disk scan_options pull_policy_options doubling h h' i j);
    reflexivity.
Defined.

Lemma no_target_run :
  URI no_target <> "" /\ Image no_target = "" /\ Container no_target = ""
  /\ outcome (built [] []) no_target = Some (Some MissingTarget).
Proof.
  split; [discriminate|]. split; [reflexivity|]. split; [reflexivity|].
  apply no_target_MissingTarget; [discriminate | reflexivity | reflexivity].
Defined.

Lemma diff_of_an_image_run :
  URI diff_of_an_image <> "" /\ Container diff_of_an_image = ""
  /\ cmd.ScanContainerChanges diff_of_an_image = true
  /\ outcome (built [] []) diff_of_an_image = Some (Some MissingContainerForDiff).
Proof.
  split; [discriminate|]. split; [reflexivity|]. split; [reflexivity|].
  exact (diff_without_container disk scan_options pull_policy_options doubling
           (built [] []) diff_of_an_image ltac:(discriminate) eq_refl eq_refl).
Defined.

Lemma two_credentials_run :
  let h := built ["/root/.dockercfg"] [] in
  fst (run (firstn 4 rules) (start h two_credentials)) = Normal tt
  /\ elems h (DockerCfg two_credentials) <> [] /\ cmd.Username two_credentials <> ""
  /\ outcome h two_credentials = Some (Some ConflictingAuth).
Proof.
  intros h.
  split; [reflexivity|]. split; [discriminate|]. split; [discriminate|].
  apply dockercfg_and_username_ConflictingAuth; [reflexivity | discriminate | discriminate].
Defined.

Lemma no_password_run :
  fst (run (firstn 5 rules) (start (built [] []) no_password)) = Normal tt
  /\ cmd.Username no_password <> "" /\ cmd.PasswordFile no_password = ""
  /\ outcome (built [] []) no_password = Some (Some MissingPasswordFile).
Proof.
  split; [reflexivity|]. split; [discriminate|]. split; [reflexivity|].
  apply username_without_password_file; [reflexivity | discriminate | reflexivity].
Defined.

Lemma chroot_without_serve_run :
  fst (run (firstn 6 rules) (start (built [] []) chroot_alone)) = Normal tt
  /\ Serve chroot_alone = ""
  /\ Chroot chroot_alone = true
  /\ outcome (built [] []) chroot_alone = Some (Some ChrootRequiresServe).
Proof.
  split; [reflexivity|]. split; [reflexivity|]. split; [reflexivity|].
  apply chroot_without_serve; reflexivity.
Defined.

Lemma results_without_scan_run :
  fst (run (firstn 7 rules) (start (built [] []) results_without_scan)) = Normal tt
  /\ cmd.ScanResultsDir results_without_scan <> ""
  /\ elems (built [] []) (cmd.ScanTypes results_without_scan) = []
  /\ outcome (built [] []) results_without_scan = Some (Some ResultsDirWithoutScanType)
  /\ stat_calls disk scan_options pull_policy_options doubling (built [] [])
       results_without_scan
     = [].
Proof.
  split; [reflexivity|]. split; [discriminate|]. split; [reflexivity|].
  apply results_dir_without_scan_type; [reflexivity | discriminate | reflexivity].
Defined.

Lemma token_without_url_run :
  fst (run (firstn 9 rules) (start (built [] []) token_without_url)) = Normal tt
  /\ PostResultTokenFile token_without_url <> ""
  /\ PostResultURL token_without_url = ""
  /\ outcome (built [] []) token_without_url = Some (Some TokenFileWithoutPostURL).
Proof.
  split; [reflexivity|]. split; [discriminate|]. split; [reflexivity|].
  apply token_file_without_post_url; [reflexivity | discriminate | reflexivity].
Defined.

Lemma html_without_openscap_run :
  let h := built [] ["clamav"] in
  fst (run (firstn 10 rules) (start h html_without_openscap)) = Normal tt
  /\ OpenScapHTML html_without_openscap = true
  /\ ~ In "openscap" (elems h (cmd.ScanTypes html_without_openscap))
  /\ outcome h html_without_openscap = Some (Some HTMLReportRequiresOpenSCAP).
Proof.
  intros h.
  assert (H : ~ In "openscap" (elems h (cmd.ScanTypes html_without_openscap)))
    by (intros [H|[]]; discriminate H).
  split; [reflexivity|]. split; [reflexivity|]. split; [exact H|].
  apply html_report_without_openscap; [reflexivity | reflexivity | exact H].
Defined.

Lemma clamav_without_socket_run :
  let h := built [] ["openscap"; "clamav"] in
  ScanTypes_apart doubling h clamav_alone = true
  /\ fst (run (firstn 12 rules) (start h clamav_alone)) = Normal tt
  /\ In "clamav" (elems h (cmd.ScanTypes clamav_alone))
  /\ ClamSocket clamav_alone = ""
  /\ outcome h clamav_alone = Some (Some MissingClamSocket).
Proof.
  intros h.
  assert (H : In "clamav" (elems h (cmd.ScanTypes clamav_alone)))
    by (right; left; reflexivity).
  split; [reflexivity|]. split; [reflexivity|]. split; [exact H|].
  split; [reflexivity|].
  apply clamav_without_socket; [reflexivity | reflexivity | exact H | reflexivity].
Defined.

Lemma unknown_scan_types_run :
  let h := built [] ["openscap"; "bogus"; "worse"] in
  ScanTypes_apart doubling h unknown_scan_types = true
  /\ fst (run (firstn 13 rules) (start h unknown_scan_types)) = Normal tt
  /\ elems h (cmd.ScanTypes unknown_scan_types) = ["openscap"] ++ "bogus" :: ["worse"]
  /\ ~ In "bogus" scan_options
  /\ outcome h unknown_scan_types = Some (Some (InvalidScanType "bogus" scan_options))
  /\ Error (fun s => s) (InvalidScanType "bogus" scan_options)
     = "bogus is not one of the available scan-types which are [openscap clamav]".
Proof.
  intros h.
  assert (H : ~ In "bogus" scan_options) by (intros [H|[H|[]]]; discriminate H).
  split; [reflexivity|]. split; [reflexivity|]. split; [reflexivity|].
  split; [exact H|].
  apply (first_unknown_scan_type disk scan_options pull_policy_options doubling
           h unknown_scan_types ["openscap"] ["worse"] "bogus" (fun s => s)).
  - reflexivity.
  - reflexivity.
  - reflexivity.
  - intros x [<-|[]]. left. reflexivity.
  - exact H.
Defined.

Lemma unknown_pull_policy_run :
  let h := built [] ["openscap"] in
  fst (run (firstn 14 rules) (start h odd_pull_policy)) = Normal tt
  /\ ~ In (cmd.PullPolicy odd_pull_policy) pull_policy_options
  /\ outcome h odd_pull_policy
     = Some (Some (InvalidPullPolicy "sometimes" pull_policy_options))
  /\ Error (fun s => s) (InvalidPullPolicy "sometimes" pull_policy_options)
     = "sometimes is not one of the available pull-policy options which are [always if-not-present never]".
Proof.
  intros h.
  assert (H : ~ In (cmd.PullPolicy odd_pull_policy) pull_policy_options)
    by (intros [H|[H|[H|[]]]]; discriminate H).
  split; [reflexivity|]. split; [exact H|].
  apply (unknown_pull_policy disk scan_options pull_policy_options doubling
           h odd_pull_policy (fun s => s)); [reflexivity | exact H].
Defined.

Lemma default_options_with_busybox :
  outcome (built [] [])
    (with_target "busybox" "" false
       (NewDefaultImageInspectorOptions "https://cve.example/feed" "if-not-present"))
  = Some None
  /\ outcome (built [] [])
       (with_target "" "abc" true
          (NewDefaultImageInspectorOptions "https://cve.example/feed" "if-not-present"))
     = Some None
  /\ outcome (built [] [])
       (with_target "busybox" "" true
          (NewDefaultImageInspectorOptions "https://cve.example/feed" "if-not-present"))
     = Some (Some MissingContainerForDiff)
  /\ outcome (built [] [])
       (with_target "busybox" "abc" true
          (NewDefaultImageInspectorOptions "https://cve.example/feed" "if-not-present"))
     = Some (Some ConflictingTarget).
Proof.
  exact (default_options_with_a_target disk scan_options pull_policy_options doubling
           "https://cve.example/feed" "if-not-present" "busybox" "abc" true
           (built [] []) ltac:(discriminate) ltac:(discriminate)).
Defined.

Lemma many_faults_first_violation :
  let h := built [] ["bogus"] in
  ScanTypes_apart doubling h many_faults = true
  /\ passes_upto disk scan_options pull_policy_options 8 (config_of h many_faults)
  /\ spec.rule_no disk scan_options pull_policy_options 9 (config_of h many_faults)
     = Some (ResultsDirNotADirectory "/tmp/existing-file-not-dir")
  /\ outcome h many_faults
     = Some (Some (ResultsDirNotADirectory "/tmp/existing-file-not-dir"))
  /\ Validate disk scan_options pull_policy_options doubling (start h many_faults)
     = run (firstn 9 rules) (start h many_faults).
Proof.
  intros h.
  split; [reflexivity|]. split; [reflexivity|]. split; [reflexivity|].
  destruct (first_violation_when_apart disk scan_options pull_policy_options doubling
              h many_faults eq_refl) as (_ & _ & _ & H).
  exact (H 8 _ eq_refl eq_refl).
Defined.

Lemma spare_capacity_is_harmless :
  let h' := built ["/root/.dockercfg"] [] in
  slices_apart doubling spare_cells with_spare_capacity = true
  /\ ScanTypes_apart doubling h' without_spare_capacity = true
  /\ config_of spare_cells with_spare_capacity = config_of h' without_spare_capacity
  /\ outcome spare_cells with_spare_capacity = outcome h' without_spare_capacity
  /\ config_of
       (after disk scan_options pull_policy_options doubling spare_cells
          with_spare_capacity) with_spare_capacity
     = config_of spare_cells with_spare_capacity.
Proof.
  intros h'.
  split; [reflexivity|]. split; [reflexivity|]. split; [reflexivity|].
  apply (unchanged_when_apart disk scan_options pull_policy_options doubling
           spare_cells h' with_spare_capacity without_spare_capacity);
    reflexivity.
Defined.

Lemma shared_array_in_two_phases :
  first_violation (firstn 12 validation_rules) (config_of one_array on_one_array) = None
  /\ after disk scan_options pull_policy_options doubling one_array on_one_array
     = appended doubling one_array on_one_array
  /\ outcome one_array on_one_array
     = Some (first_violation (skipn 12 validation_rules)
               (config_of (appended doubling one_array on_one_array) on_one_array)).
Proof.
  destruct (Validate_in_two_phases disk scan_options pull_policy_options doubling
              one_array on_one_array) as (H1 & _ & H3).
  split; [reflexivity|]. split; [exact (H3 eq_refl)|].
  exact H1.
Defined.

(** A default pull policy the domain does not have is reported. *)
Example default_options_unknown_policy :
  outcome (built [] [])
    (with_target "busybox" "" false
       (NewDefaultImageInspectorOptions "https://cve.example/feed" "not-present"))
  = Some (Some (InvalidPullPolicy "not-present" pull_policy_options)).
Proof. reflexivity. Qed.

(** With the scan type clamav in the shared cell, the struct violates
    rule 13 when [Validate] is called, and the call returns the
    invalid-scan-type error of rule 14 instead: statement 13 no longer
    finds clamav. *)
Example shared_array_hides_clamav :
  spec.rule_no disk scan_options pull_policy_options 13
    (config_of clamav_array on_one_array) = Some MissingClamSocket
  /\ passes_upto disk scan_options pull_policy_options 12
       (config_of clamav_array on_one_array)
  /\ outcome clamav_array on_one_array
     = Some (Some (InvalidScanType "/root/.dockercfg" scan_options)).
Proof. repeat split; reflexivity. Qed.

End Runs.

End cmd_laws.
